(** * fontTools: the generic visitor engine and the otlLib error value

    A shallow embedding of [Lib/fontTools/misc/visitor.py] (class [Visitor])
    and of [Lib/fontTools/otlLib/error.py] (class [OpenTypeLibError]),
    followed by the properties of the dispatch-and-traversal engine.

    Conventions of the embedding.
    - Python values are the inductive [value]; only what the engine can
      observe of a value is kept: its exact runtime type, whether it has an
      attribute dictionary, whether it is an [enum.Enum] member, whether it
      is a [list] or a [dict].  Strings are byte strings in UTF-8, whose
      order is the order of [str].  Nodes are not modified while they are
      traversed.
    - Python code runs in the monad [M]: it threads a caller-chosen state
      and either returns or raises; the state reached when an exception is
      raised is kept, as in Python.
    - [self.m(...)] is a dynamic call: the methods a subclass may override
      are the fields of the record [hooks]; the methods of [Visitor] take
      [self] as a parameter and call back through it, and so may the
      registered handlers.  [instance] ties the knot, one stack frame per
      call through [self].
    - An engine class carries its method resolution order, as Python
      computed it when the class was created.
    - [assert] statements are executed (the interpreter runs without -O). *)

From Stdlib Require Import Ascii String Floats.SpecFloat.
From stdpp Require Import gmap strings list sorting.

Open Scope string_scope.
Open Scope list_scope.

Set Warnings "-register-all".

(** ** Python values *)

(** Exact runtime types, the keys of the registration tables.  A user class
    is identified by its name, which is also its [__name__]. *)
Inductive pytype : Type :=
  | TNoneType | TBool | TInt | TFloat | TStr | TTuple | TList | TDict
  | TClass (name : string).

#[global] Instance pytype_eq_dec : EqDecision pytype.
Proof. solve_decision. Defined.

Definition pytype_code (t : pytype) : nat + string :=
  match t with
  | TNoneType => inl 0 | TBool => inl 1 | TInt => inl 2 | TFloat => inl 3
  | TStr => inl 4 | TTuple => inl 5 | TList => inl 6 | TDict => inl 7
  | TClass name => inr name
  end.

Definition pytype_decode (c : nat + string) : pytype :=
  match c with
  | inl 0 => TNoneType | inl 1 => TBool | inl 2 => TInt | inl 3 => TFloat
  | inl 4 => TStr | inl 5 => TTuple | inl 6 => TList | inl _ => TDict
  | inr name => TClass name
  end.

#[global] Instance pytype_countable : Countable pytype.
Proof.
  apply (inj_countable' pytype_code pytype_decode). by intros [].
Defined.

(** [clazz.__name__] *)
Definition type_name (t : pytype) : string :=
  match t with
  | TNoneType => "NoneType" | TBool => "bool" | TInt => "int"
  | TFloat => "float" | TStr => "str" | TTuple => "tuple"
  | TList => "list" | TDict => "dict"
  | TClass name => name
  end.

(** The values the engine is run on.  [VObj] is any instance that has a
    [__dict__] and is not an enum member (an instance of a subclass of
    [list] or [dict] with a [__dict__] is one too: the engine tests for the
    [__dict__] first); it carries the name of its class, the attributes of
    the class that an instance attribute of the same name hides (plain
    values and methods, not data descriptors) and the instance dictionary
    in insertion order.  [VEnum] is a member of an [enum.Enum] class
    together with its [__dict__] ([_value_], [_name_], ...).  [VTuple]
    stands for the built-in containers other than [list] and [dict]. *)
Inductive value : Type :=
  | VNone
  | VBool (b : bool)
  | VInt (n : Z)
  | VFloat (f : spec_float)
  | VStr (s : string)
  | VTuple (items : list value)
  | VList (items : list value)
  | VDict (entries : list (value * value))
  | VEnum (cls : string) (members : list (string * value))
  | VObj (cls : string) (class_attrs : list (string * value))
         (inst_dict : list (string * value)).

(** [type(thing)] *)
Definition type_of (thing : value) : pytype :=
  match thing with
  | VNone => TNoneType
  | VBool _ => TBool
  | VInt _ => TInt
  | VFloat _ => TFloat
  | VStr _ => TStr
  | VTuple _ => TTuple
  | VList _ => TList
  | VDict _ => TDict
  | VEnum cls _ => TClass cls
  | VObj cls _ _ => TClass cls
  end.

(** [obj.__dict__], when there is one: [hasattr(obj, "__dict__")] is
    [is_Some (py_dict obj)] and [vars(obj)] is its content. *)
Definition py_dict (obj : value) : option (list (string * value)) :=
  match obj with
  | VEnum _ members => Some members
  | VObj _ _ inst_dict => Some inst_dict
  | _ => None
  end.

Definition hasattr_dict (obj : value) : bool := bool_decide (is_Some (py_dict obj)).

(** [isinstance(obj, enum.Enum)], [isinstance(obj, list)],
    [isinstance(obj, dict)] *)
Definition isinstance_Enum (obj : value) : bool :=
  match obj with VEnum _ _ => true | _ => false end.

Definition isinstance_list (obj : value) : bool :=
  match obj with VList _ => true | _ => false end.

Definition isinstance_dict (obj : value) : bool :=
  match obj with VDict _ => true | _ => false end.

(** First binding of [key] in a dictionary kept as an association list. *)
Fixpoint assoc {A : Type} (key : string) (d : list (string * A)) : option A :=
  match d with
  | [] => None
  | (k, v) :: rest => if decide (k = key) then Some v else assoc key rest
  end.

(** [ret == False] for a handler result: [False], and the numbers that
    compare equal to it, [0], [0.0] and [-0.0]. *)
Definition eq_False (ret : value) : bool :=
  match ret with
  | VBool b => negb b
  | VInt n => bool_decide (n = 0%Z)
  | VFloat (S754_zero _) => true
  | _ => false
  end.

(** [ret is None] *)
Definition is_None (ret : value) : bool :=
  match ret with VNone => true | _ => false end.

(** ** Exceptions and the execution monad *)

Inductive pyexc : Type :=
  | AssertionError (msg : string)
  | IndexError
  | TypeError
  | AttributeError
  | RecursionError
  | Raised (what : value).

Inductive outcome (A : Type) : Type :=
  | Return (a : A)
  | Raise (e : pyexc).
Arguments Return {A} a.
Arguments Raise {A} e.

(** A computation over a state of type [St]: it returns or raises, and
    leaves a state behind in both cases. *)
Definition M (St A : Type) : Type := St -> outcome A * St.

#[global] Instance M_ret {St} : MRet (M St) :=
  fun A (a : A) st => (Return a, st).

#[global] Instance M_bind {St} : MBind (M St) :=
  fun A B (k : A -> M St B) (m : M St A) st =>
    match m st with
    | (Return a, st') => k a st'
    | (Raise e, st') => (Raise e, st')
    end.

Definition raise {St A} (e : pyexc) : M St A := fun st => (Raise e, st).

(** [assert cond, msg] *)
Definition py_assert {St} (cond : bool) (msg : string) : M St unit :=
  if cond then mret tt else raise (AssertionError msg).

(** [for x in l: body(x)]; an exception leaves the loop. *)
Fixpoint for_each {St A} (l : list A) (body : A -> M St unit) : M St unit :=
  match l with
  | [] => mret tt
  | x :: rest => body x ;; for_each rest body
  end.

(** ** Strings: order and formatting *)

(** [a <= b] on [str], the order [sorted] uses. *)
Definition str_le (a b : string) : Prop := String.leb a b = true.

#[global] Instance str_le_dec : RelDecision str_le.
Proof. intros a b. unfold str_le. apply _. Defined.

(** [sorted(keys)] *)
Definition sorted (keys : list string) : list string := merge_sort str_le keys.

(** [key[0] == "_"]; indexing the empty string raises [IndexError]. *)
Definition starts_with_underscore {St} (key : string) : M St bool :=
  match key with
  | EmptyString => raise IndexError
  | String c _ => mret (bool_decide (c = "_"%char))
  end.

(** [f"{attr}"] for a field selector: [None] prints as [None]. *)
Definition selector_str (attr : option string) : string :=
  match attr with
  | None => "None"
  | Some s => s
  end.

(** ** The engine *)

Section Engine.

(** The state the handlers and the overridden hooks of a run work on. *)
Context {S : Type}.

(** Extra context of a call, [*args] and [**kwargs], handed on unchanged. *)
Record extra : Type := Extra {
  args : list value;
  kwargs : list (string * value)
}.

(** What the engine and the handlers reach through [self]: the methods a
    subclass may override, and the attribute [defaultStop]. *)
Record hooks : Type := Hooks {
  visit : value -> extra -> M S unit;
  visitObject : value -> extra -> M S unit;
  visitAttr : value -> string -> value -> extra -> M S unit;
  visitList : value -> extra -> M S unit;
  visitDict : value -> extra -> M S unit;
  visitLeaf : value -> extra -> M S unit;
  defaultStop : bool
}.

(** A registered function: its [__name__], and its effect when called with
    [self], the positional arguments after [self], and the keyword
    arguments. *)
Record method : Type := Method {
  meth_name : string;
  meth_call : hooks -> list value -> list (string * value) -> M S value
}.

(** The handlers of one node type, keyed by field selector: [None] for the
    whole node, a field name, or the wildcard ["*"].  A table
    ([cls._visitors]) maps exact node types to such handler sets. *)
#[local] Abbreviation handler_set := (gmap (option string) method).
#[local] Abbreviation table := (gmap pytype handler_set).

(** Engine types.  [own_visitors] is the entry [_visitors] of the class's
    own [__dict__], when it has one; [ancestors] are the classes after it in
    its method resolution order, [cls.mro()[1:]], without the final
    [object]. *)
Inductive engine_class : Type :=
  | Class (own_visitors : option table) (ancestors : list engine_class).

Definition own_visitors (cls : engine_class) : option table :=
  match cls with Class own _ => own end.

Definition ancestors (cls : engine_class) : list engine_class :=
  match cls with Class _ ancestors => ancestors end.

(** [cls.mro()], without the final [object], which has no [_visitors]. *)
Definition mro (cls : engine_class) : list engine_class :=
  cls :: ancestors cls.

(** [class Visitor(object)]: no table, and no ancestor but [object]. *)
Definition Visitor : engine_class := Class None [].

(** [class C(base)], possibly with a table of its own: the MRO of a class
    with a single base is the class followed by the MRO of the base. *)
Definition Subclass (own : option table) (base : engine_class)
    : engine_class :=
  Class own (mro base).

(** [getattr(cls, "_visitors", None)]: the attribute is looked up in the
    [__dict__] of the classes of the MRO of [cls], in order. *)
Fixpoint first_visitors (classes : list engine_class) : option table :=
  match classes with
  | [] => None
  | c :: rest =>
      match own_visitors c with
      | Some t => Some t
      | None => first_visitors rest
      end
  end.

Definition getattr_visitors (cls : engine_class) : option table :=
  first_visitors (mro cls).

(** *** Registration *)

(** The [clazzes] and [attrs] arguments before normalisation: one class or
    a tuple of classes, one string or a tuple of selectors. *)
Inductive clazzes_arg : Type :=
  | OneClass (clazz : pytype)
  | ClassTuple (clazzes : list pytype).

Inductive attrs_arg : Type :=
  | AttrStr (attr : string)
  | AttrTuple (attrs : list (option string)).

(** [if type(clazzes) != tuple: clazzes = (clazzes,)] *)
Definition as_clazzes (clazzes : clazzes_arg) : list pytype :=
  match clazzes with
  | OneClass clazz => [clazz]
  | ClassTuple l => l
  end.

(** [if type(attrs) == str: attrs = (attrs,)] *)
Definition as_attrs (attrs : attrs_arg) : list (option string) :=
  match attrs with
  | AttrStr attr => [Some attr]
  | AttrTuple l => l
  end.

Definition duplicate_msg (clazz : pytype) (attr : option string) : string :=
  "Oops, class '" +:+ type_name clazz +:+ "' has visitor function for '"
    +:+ selector_str attr +:+ "' defined already.".

(** [celf._visitors.setdefault(clazz, {})]: the handler set of [clazz],
    entered empty into the table when it was missing. *)
Definition setdefault (clazz : pytype) : M table handler_set :=
  fun tbl =>
    match tbl !! clazz with
    | Some _visitors => (Return _visitors, tbl)
    | None => (Return ∅, <[clazz := ∅]> tbl)
    end.

(** The body of [for attr in attrs]: the assertion, then
    [_visitors[attr] = method].  [_visitors] is the dictionary the table
    holds under [clazz], not a copy: it is read from the table at each
    turn, and the assignment updates the table. *)
Definition register_one (clazz : pytype) (m : method) (attr : option string)
    : M table unit :=
  fun tbl =>
    let _visitors := default ∅ (tbl !! clazz) in
    match _visitors !! attr with
    | Some _ => (Raise (AssertionError (duplicate_msg clazz attr)), tbl)
    | None => (Return tt, <[clazz := <[attr := m]> _visitors]> tbl)
    end.

(** The decorator returned by [_register], applied to [method]; it works on
    [celf._visitors]. *)
Definition wrapper (clazzes_attrs : list (clazzes_arg * attrs_arg))
    (m : method) : M table unit :=
  py_assert (bool_decide (meth_name m = "visit")) "" ;;
  for_each clazzes_attrs (fun '(clazzes, attrs) =>
    for_each (as_clazzes clazzes) (fun clazz =>
      setdefault clazz ;;
      for_each (as_attrs attrs) (register_one clazz m))).

(** [celf._register(clazzes_attrs)]: refuses [Visitor] itself, the engine
    type without ancestors, and gives the class an empty table of its own
    when it has none. *)
Definition _register (celf : engine_class) : outcome engine_class :=
  match celf with
  | Class _ [] => Raise (AssertionError "Subclass Visitor instead.")
  | Class own ancestors => Return (Class (Some (default ∅ own)) ancestors)
  end.

(** [celf._visitors] once [_register] has run: the table of the class's
    own [__dict__]; and the class after the statements of the decorator
    have updated that table in place. *)
Definition own_table (celf : engine_class) : table :=
  default ∅ (own_visitors celf).

Definition with_own_table (celf : engine_class) (tbl : table) : engine_class :=
  Class (Some tbl) (ancestors celf).

(** [@celf._register(clazzes_attrs)] put on a function definition: the
    outcome, and the class as the statement leaves it. *)
Definition decorate (celf : engine_class)
    (clazzes_attrs : list (clazzes_arg * attrs_arg)) (m : method)
    : outcome unit * engine_class :=
  match _register celf with
  | Raise e => (Raise e, celf)
  | Return celf' =>
      let '(r, tbl) := wrapper clazzes_attrs m (own_table celf') in
      (r, with_own_table celf' tbl)
  end.

(** [@cls.register(clazzes)] *)
Definition register (cls : engine_class) (clazzes : clazzes_arg) (m : method)
    : outcome unit * engine_class :=
  decorate cls [(ClassTuple (as_clazzes clazzes), AttrTuple [None])] m.

(** [@cls.register_attr(clazzes, attrs)] *)
Definition register_attr (cls : engine_class) (clazzes : clazzes_arg)
    (attrs : attrs_arg) (m : method) : outcome unit * engine_class :=
  decorate cls
    ((fun clazz => (OneClass clazz, AttrTuple (as_attrs attrs)))
       <$> as_clazzes clazzes) m.

(** [@cls.register_attrs(clazzes_attrs)] *)
Definition register_attrs (cls : engine_class)
    (clazzes_attrs : list (clazzes_arg * attrs_arg)) (m : method)
    : outcome unit * engine_class :=
  decorate cls clazzes_attrs m.

(** *** Resolution *)

(** The loop of [_visitorsFor] over the classes of the MRO still ahead. *)
Fixpoint visitorsFor_loop (classes : list engine_class) (typ : pytype)
    : handler_set :=
  match classes with
  | [] => ∅
  | cls :: rest =>
      match getattr_visitors cls with
      | None => ∅
      | Some _visitors =>
          match _visitors !! typ with
          | Some m => m
          | None => visitorsFor_loop rest typ
          end
      end
  end.

(** [cls._visitorsFor(thing)]; [_default] is the empty dictionary. *)
Definition _visitorsFor (cls : engine_class) (thing : value) : handler_set :=
  visitorsFor_loop (mro cls) (type_of thing).

(** *** Traversal *)

(** [getattr(obj, key)]: the instance dictionary first, then the plain
    attributes of the class. *)
Definition getattr (obj : value) (key : string) : M S value :=
  match obj with
  | VObj _ class_attrs inst_dict =>
      match assoc key inst_dict with
      | Some v => mret v
      | None =>
          match assoc key class_attrs with
          | Some v => mret v
          | None => raise AttributeError
          end
      end
  | VEnum _ members =>
      match assoc key members with
      | Some v => mret v
      | None => raise AttributeError
      end
  | _ => raise AttributeError
  end.

(** [vars(obj)] *)
Definition vars (obj : value) : M S (list (string * value)) :=
  match py_dict obj with
  | Some d => mret d
  | None => raise TypeError
  end.

(** [for value in obj]: the items a [for] loop draws from [obj]; a dict
    yields its keys, a string its characters (one per byte here). *)
Definition py_iter (obj : value) : M S (list value) :=
  match obj with
  | VList items | VTuple items => mret items
  | VDict entries => mret (fst <$> entries)
  | VStr s => mret ((fun c => VStr (String c EmptyString)) <$> list_ascii_of_string s)
  | _ => raise TypeError
  end.

(** [obj.values()] *)
Definition py_values (obj : value) : M S (list value) :=
  match obj with
  | VDict entries => mret (snd <$> entries)
  | _ => raise AttributeError
  end.

(** [ret == False or (ret is None and self.defaultStop)] *)
Definition stops (self : hooks) (ret : value) : bool :=
  eq_False ret || (is_None ret && defaultStop self).

(** The body of the loop of [visitObject], for one [key]; [private] and
    [skip] stand for the two [continue]s that come before
    [self.visitAttr]. *)
Definition visitObject_field (self : hooks) (_visitors : handler_set)
    (defaultVisitor : option method) (obj : value) (ex : extra) (key : string)
    : M S unit :=
  private ← starts_with_underscore key;
  if private : bool then mret tt else
  value ← getattr obj key;
  let visitorFunc := from_option Some defaultVisitor (_visitors !! Some key) in
  skip ← match visitorFunc with
         | Some f =>
             ret ← meth_call f self (obj :: VStr key :: value :: args ex) (kwargs ex);
             mret (stops self ret)
         | None => mret false
         end;
  if skip : bool then mret tt else visitAttr self obj key value ex.

(** [Visitor.visitObject] *)
Definition Visitor_visitObject (cls : engine_class) (self : hooks)
    (obj : value) (ex : extra) : M S unit :=
  d ← vars obj;
  let keys := sorted (fst <$> d) in
  let _visitors := _visitorsFor cls obj in
  let defaultVisitor := _visitors !! Some "*" in
  for_each keys (visitObject_field self _visitors defaultVisitor obj ex).

(** [Visitor.visitAttr] *)
Definition Visitor_visitAttr (self : hooks) (obj : value) (attr : string)
    (value : value) (ex : extra) : M S unit :=
  visit self value ex.

(** [Visitor.visitList] *)
Definition Visitor_visitList (self : hooks) (obj : value) (ex : extra)
    : M S unit :=
  items ← py_iter obj;
  for_each items (fun value => visit self value ex).

(** [Visitor.visitDict] *)
Definition Visitor_visitDict (self : hooks) (obj : value) (ex : extra)
    : M S unit :=
  values ← py_values obj;
  for_each values (fun value => visit self value ex).

(** [Visitor.visitLeaf] *)
Definition Visitor_visitLeaf (self : hooks) (obj : value) (ex : extra)
    : M S unit :=
  mret tt.

(** The [if]/[elif] chain that ends [Visitor.visit]. *)
Definition dispatch (self : hooks) (obj : value) (ex : extra) : M S unit :=
  if hasattr_dict obj && negb (isinstance_Enum obj) then visitObject self obj ex
  else if isinstance_list obj then visitList self obj ex
  else if isinstance_dict obj then visitDict self obj ex
  else visitLeaf self obj ex.

(** [Visitor.visit]; [stop] stands for the early [return]. *)
Definition Visitor_visit (cls : engine_class) (self : hooks) (obj : value)
    (ex : extra) : M S unit :=
  stop ← match _visitorsFor cls obj !! None with
         | Some visitorFunc =>
             ret ← meth_call visitorFunc self (obj :: args ex) (kwargs ex);
             mret (stops self ret)
         | None => mret false
         end;
  if stop : bool then mret tt else dispatch self obj ex.

(** *** Instances *)

(** The methods of an instance whose stack is exhausted. *)
Definition exhausted (flag : bool) : hooks :=
  {| visit := fun _ _ => raise RecursionError;
     visitObject := fun _ _ => raise RecursionError;
     visitAttr := fun _ _ _ _ => raise RecursionError;
     visitList := fun _ _ => raise RecursionError;
     visitDict := fun _ _ => raise RecursionError;
     visitLeaf := fun _ _ => raise RecursionError;
     defaultStop := flag |}.

(** The methods [Visitor] defines, bound to [self]. *)
Definition Visitor_methods (cls : engine_class) (flag : bool) (self : hooks)
    : hooks :=
  {| visit := Visitor_visit cls self;
     visitObject := Visitor_visitObject cls self;
     visitAttr := Visitor_visitAttr self;
     visitList := Visitor_visitList self;
     visitDict := Visitor_visitDict self;
     visitLeaf := Visitor_visitLeaf self;
     defaultStop := flag |}.

(** An instance of a class that gives its methods as [body self]; every
    call through [self] takes one of the [frames] stack frames left. *)
Fixpoint instance (body : hooks -> hooks) (flag : bool) (frames : nat)
    : hooks :=
  match frames with
  | 0 => exhausted flag
  | Datatypes.S n => body (instance body flag n)
  end.

(** [class C(Visitor)] that only overrides [visitLeaf], by [leaf]. *)
Definition with_leaf_hook (leaf : value -> extra -> M S unit)
    (cls : engine_class) (flag : bool) (self : hooks) : hooks :=
  let super := Visitor_methods cls flag self in
  {| visit := visit super;
     visitObject := visitObject super;
     visitAttr := visitAttr super;
     visitList := visitList super;
     visitDict := visitDict super;
     visitLeaf := leaf;
     defaultStop := flag |}.

End Engine.

Arguments hooks : clear implicits.
Arguments method : clear implicits.
Arguments engine_class : clear implicits.

Abbreviation handler_set S := (gmap (option string) (method S)).
Abbreviation table S := (gmap pytype (handler_set S)).

(** ** The otlLib error value *)

(** An [OpenTypeLibError]: the message handed to [Exception.__init__] and
    the attribute [location], which is [None] or a string. *)
Record OpenTypeLibError : Type := {
  message : string;
  location : option string
}.

(** [OpenTypeLibError(message, location)] *)
Definition OpenTypeLibError_init (message : string) (location : option string)
    : OpenTypeLibError :=
  {| message := message; location := location |}.

(** Truth value of [self.location]: [None] and the empty string are false. *)
Definition location_truthy (location : option string) : bool :=
  match location with
  | None => false
  | Some EmptyString => false
  | Some (String _ _) => true
  end.

(** [OpenTypeLibError.__str__] *)
Definition OpenTypeLibError_str (self : OpenTypeLibError) : string :=
  let message := message self in
  if location_truthy (location self)
  then selector_str (location self) +:+ ": " +:+ message
  else message.

(** ** Sample engines and nodes

    A visitor whose state is the log of what its handlers and its leaf hook
    were given; the runs below and the instances of the theorems use it. *)

Definition log : Type := list (string * value).

(** A handler that records its node under [tag] and returns [ret]. *)
Definition recording (tag : string) (ret : value) : method log :=
  {| meth_name := "visit";
     meth_call := fun _ positional _ st =>
       (Return ret, st ++ [(tag, default VNone (head positional))]) |}.

(** A subclass of [Visitor] that only overrides [visitLeaf], to record the
    leaves it is given. *)
Definition LeafLogger : engine_class log -> bool -> hooks log -> hooks log :=
  with_leaf_hook (fun obj _ st => (Return tt, st ++ [("leaf", obj)])).

Definition no_extra : extra := Extra [] [].


(** A handler that records its node under [tag] and raises. *)
Definition failing (tag : string) : method log :=
  {| meth_name := "visit";
     meth_call := fun _ positional _ st =>
       (Raise (Raised (VStr "boom")),
        st ++ [(tag, default VNone (head positional))]) |}.

(** [class Plain(Visitor)] with nothing registered. *)
Definition Plain : engine_class log := Subclass None Visitor.

(** [class StopA(Visitor)] with a whole-node handler for [A] that returns
    [False], and [class Derived(StopA)] with a table of its own that has
    nothing for [A]. *)
Definition StopA : engine_class log :=
  Subclass (Some {[ TClass "A" := {[ None := recording "A" (VBool false) ]} ]})
           Visitor.

Definition Derived : engine_class log :=
  Subclass (Some {[ TClass "U" := {[ None := recording "U" VNone ]} ]}) StopA.

(** [class Diamond(Plain, StopA)] with a table of its own that has nothing
    for [A]; its MRO is [Diamond, Plain, StopA, Visitor]. *)
Definition Diamond : engine_class log :=
  Class (Some {[ TClass "U" := {[ None := recording "U" VNone ]} ]})
        [Plain; StopA; Visitor].

(** [class OnlyX(Visitor)] with a handler for field [x] of [B]. *)
Definition OnlyX (ret : value) : engine_class log :=
  Subclass (Some {[ TClass "B" := {[ Some "x" := recording "B.x" ret ]} ]})
           Visitor.

Definition node_A : value :=
  VObj "A" [] [("child", VList [VInt 1; VInt 2])].

Definition dict_B : list (string * value) :=
  [("y", VInt 20); ("_cache", VInt 0); ("x", VInt 10)].

Definition node_B : value := VObj "B" [("shared", VInt 0)] dict_B.

Definition node_U : value := VObj "U" [] [("k", VInt 3)].

(** A visitor of class [cls] that records leaves, with room for [12] nested
    calls. *)
Definition logger (cls : engine_class log) (flag : bool) : hooks log :=
  instance (LeafLogger cls flag) flag 12.

(** ** Reference definitions

    The notions the properties are stated with, written after the words of
    the specification rather than after the code. *)

Section Reference.

Context {S : Type}.

(** The entry the class's own table has for [typ], when it has one. *)
Definition own_entry (cls : engine_class S) (typ : pytype)
    : option (handler_set S) :=
  own_visitors cls ≫= (.!! typ).

(** Resolution: walk the inheritance chain from the most derived class to
    the least derived one and take the first table entry found for [typ];
    the empty handler set when there is none. *)
Fixpoint first_entry (chain : list (engine_class S)) (typ : pytype)
    : handler_set S :=
  match chain with
  | [] => ∅
  | cls :: rest =>
      match own_entry cls typ with
      | Some hs => hs
      | None => first_entry rest typ
      end
  end.

Definition resolve (cls : engine_class S) (typ : pytype) : handler_set S :=
  first_entry (mro cls) typ.

(** The engine types built by single inheritance from [Visitor]: each class
    has one base, and its chain is the class followed by the chain of the
    base. *)
Inductive single_inheritance : engine_class S -> Prop :=
  | single_Visitor : single_inheritance Visitor
  | single_Subclass own base :
      single_inheritance base -> single_inheritance (Subclass own base).

(** The pair [(clazz, attr)] has a handler in the table [tbl]; it is
    registered in an engine type when it has one in the type's own table. *)
Definition in_table (tbl : table S) (clazz : pytype) (attr : option string)
    : Prop :=
  exists hs, tbl !! clazz = Some hs /\ is_Some (hs !! attr).

Definition registered (cls : engine_class S) (clazz : pytype)
    (attr : option string) : Prop :=
  exists hs, own_entry cls clazz = Some hs /\ is_Some (hs !! attr).

(** A registration request asks for the pair [(clazz, attr)]. *)
Definition covers (clazzes_attrs : list (clazzes_arg * attrs_arg))
    (clazz : pytype) (attr : option string) : Prop :=
  exists clazzes attrs,
    (clazzes, attrs) ∈ clazzes_attrs
    /\ clazz ∈ as_clazzes clazzes /\ attr ∈ as_attrs attrs.

(** The handler of a field: the one registered under the exact field name,
    else the one under the wildcard, else none. *)
Definition field_handler (hs : handler_set S) (key : string)
    : option (method S) :=
  match hs !! Some key with
  | Some f => Some f
  | None => hs !! Some "*"
  end.

(** A handler step followed by the stop/continue protocol: without a
    handler [descend] runs; with one, it is called on the positional
    arguments and the extra context, and [descend] runs unless the result
    says stop. *)
Definition guarded (self : hooks S) (handler : option (method S))
    (positional : list value) (ex : extra) (descend : M S unit) : M S unit :=
  match handler with
  | None => descend
  | Some f =>
      ret ← meth_call f self (positional ++ args ex) (kwargs ex);
      if stops self ret then mret tt else descend
  end.

(** What object traversal does with one public field. *)
Definition field_step (cls : engine_class S) (self : hooks S) (obj : value)
    (ex : extra) (key : string) : M S unit :=
  value ← getattr obj key;
  guarded self (field_handler (_visitorsFor cls obj) key)
    [obj; VStr key; value] ex (visitAttr self obj key value ex).

(** The loop of [visitObject] run over the keys [keys]. *)
Definition visitObject_from (cls : engine_class S) (self : hooks S)
    (obj : value) (ex : extra) (keys : list string) : M S unit :=
  for_each keys
    (visitObject_field self (_visitorsFor cls obj)
       (_visitorsFor cls obj !! Some "*") obj ex).

(** The privacy marker: a leading underscore. *)
Definition is_private (key : string) : bool :=
  match key with
  | String c _ => bool_decide (c = "_"%char)
  | EmptyString => false
  end.

(** The public field names of an attribute dictionary, in sorted order. *)
Definition public_fields (d : list (string * value)) : list string :=
  filter (fun key => is_private key = false) (sorted (fst <$> d)).

(** What a run of registration statements from [tbl] guarantees: pairs
    stay registered; when it returns, the pairs [asked] for are registered;
    when it raises, it is the duplicate error for a pair asked for, which
    the table has; and it raises whenever a pair asked for was there from
    the start. *)
Definition reg_run {A : Type} (asked : pytype -> option string -> Prop)
    (tbl : table S) (run : outcome A * table S) : Prop :=
  (forall c a, in_table tbl c a -> in_table run.2 c a)
  /\ match run.1 with
     | Return _ => forall c a, asked c a -> in_table run.2 c a
     | Raise e => exists c a, e = AssertionError (duplicate_msg c a)
                              /\ asked c a /\ in_table run.2 c a
     end
  /\ ((exists c a, asked c a /\ in_table tbl c a) -> exists e, run.1 = Raise e).

(** The four shapes of a node. *)
Inductive shape : Type := RecordShaped | Sequence | Mapping | Leaf.

Definition shape_of (obj : value) : shape :=
  match obj with
  | VObj _ _ _ => RecordShaped
  | VList _ => Sequence
  | VDict _ => Mapping
  | _ => Leaf
  end.

(** How deep the values nest that a traversal of [v] descends into: the
    elements of a list, the values of a dict, the fields of an object. *)
Fixpoint depth (v : value) : nat :=
  match v with
  | VList items => Datatypes.S (max_list (depth <$> items))
  | VDict entries =>
      Datatypes.S (max_list ((fun entry => depth entry.2) <$> entries))
  | VObj _ _ inst_dict =>
      Datatypes.S (max_list ((fun field => depth field.2) <$> inst_dict))
  | _ => 0
  end.

(** Stack frames that suffice to visit [obj]: three per level ([visit], the
    hook for the shape, [visitAttr]) and two for a leaf. *)
Definition frames_needed (obj : value) : nat := 3 * depth obj + 2.

(** The handlers an engine type resolves to do not call back into [self]:
    their effect is the same whatever [self] they are given. *)
Definition handlers_ignore_self (cls : engine_class S) : Prop :=
  forall obj selector f,
    _visitorsFor cls obj !! selector = Some f ->
    forall self self' positional keywords st,
      meth_call f self positional keywords st
      = meth_call f self' positional keywords st.

(** The handler a table holds for the pair [(clazz, attr)]. *)
Definition handler_at (tbl : table S) (clazz : pytype) (attr : option string)
    : option (method S) :=
  tbl !! clazz ≫= (.!! attr).

(** From [tbl] to [tbl'] the handler of a pair is kept, or the pair had
    none and now has [m]. *)
Definition grows_by (m : method S) (tbl tbl' : table S) : Prop :=
  forall c a,
    handler_at tbl' c a = handler_at tbl c a
    \/ (handler_at tbl c a = None /\ handler_at tbl' c a = Some m).

(** The handler an engine type holds itself for the pair. *)
Definition own_handler (cls : engine_class S) (clazz : pytype)
    (attr : option string) : option (method S) :=
  own_entry cls clazz ≫= (.!! attr).

(** A registration request names the node type [clazz]. *)
Definition names_class (clazzes_attrs : list (clazzes_arg * attrs_arg))
    (clazz : pytype) : Prop :=
  exists clazzes attrs,
    (clazzes, attrs) ∈ clazzes_attrs /\ clazz ∈ as_clazzes clazzes.

(** The engine type resolves every node to the empty handler set. *)
Definition unregistered (cls : engine_class S) : Prop :=
  forall thing, _visitorsFor cls thing = ∅.

(** Every field of every object inside [v] has a non-empty name. *)
Fixpoint well_named (v : value) : bool :=
  match v with
  | VList items => forallb well_named items
  | VDict entries => forallb (fun entry => well_named entry.2) entries
  | VObj _ _ inst_dict =>
      forallb (fun field => negb (String.eqb field.1 "") && well_named field.2)
        inst_dict
  | _ => true
  end.

(** The leaves of [v] in the order of a traversal without handlers: the
    elements of a list in order, the values of a dict in order, the public
    fields of an object in sorted order of their names; any other value is
    a leaf itself. *)
Fixpoint leaves (v : value) : list value :=
  match v with
  | VList items => concat (leaves <$> items)
  | VDict entries => concat ((fun entry => leaves entry.2) <$> entries)
  | VObj _ _ inst_dict =>
      let below := (fun field => (field.1, leaves field.2)) <$> inst_dict in
      concat ((fun key => default [] (assoc key below))
                <$> public_fields inst_dict)
  | _ => [v]
  end.

End Reference.

(** ** Properties *)

Section Order.

Lemma compare_le_trans (a : string) :
  forall b c, String.compare a b <> Gt -> String.compare b c <> Gt ->
              String.compare a c <> Gt.
Proof.
  induction a as [|x a IH]; intros [|y b] [|z c]; simpl; try done.
  unfold Ascii.compare.
  destruct (N.compare_spec (N_of_ascii x) (N_of_ascii y)) as [Hxy|Hxy|Hxy];
    destruct (N.compare_spec (N_of_ascii y) (N_of_ascii z)) as [Hyz|Hyz|Hyz];
    try done.
  - rewrite Hxy, Hyz, N.compare_refl. apply IH.
  - intros _ _. rewrite Hxy. by apply N.compare_lt_iff in Hyz as ->.
  - intros _ _. rewrite <- Hyz. by apply N.compare_lt_iff in Hxy as ->.
  - intros _ _.
    assert (N_of_ascii x < N_of_ascii z)%N as Hxz by (etrans; eauto).
    by apply N.compare_lt_iff in Hxz as ->.
Qed.

Lemma str_le_compare (a b : string) : str_le a b <-> String.compare a b <> Gt.
Proof. unfold str_le, String.leb. by destruct (String.compare a b). Qed.

#[global] Instance str_le_trans : Transitive str_le.
Proof.
  intros a b c. rewrite !str_le_compare. apply compare_le_trans.
Qed.

#[global] Instance str_le_total : Total str_le.
Proof. intros a b. apply String.leb_total. Qed.

#[global] Instance str_le_antisym : AntiSymm (=) str_le.
Proof. intros a b. apply String.leb_antisym. Qed.

Lemma sorted_Sorted (keys : list string) : Sorted str_le (sorted keys).
Proof. apply Sorted_merge_sort, _. Qed.

Lemma sorted_Permutation (keys : list string) : sorted keys ≡ₚ keys.
Proof. apply merge_sort_Permutation. Qed.

Lemma sorted_elem_of (key : string) (keys : list string) :
  key ∈ sorted keys <-> key ∈ keys.
Proof. by rewrite sorted_Permutation. Qed.

(** [sorted] forgets the order its argument came in. *)
Lemma sorted_order_independent (keys keys' : list string) :
  keys ≡ₚ keys' -> sorted keys = sorted keys'.
Proof.
  intros Hp. apply (Sorted_unique str_le); try apply sorted_Sorted.
  by rewrite !sorted_Permutation.
Qed.

End Order.

Section Monad.

Context {St : Type}.

Lemma bind_run {A B} (m : M St A) (k : A -> M St B) (st : St) :
  (m ≫= k) st = match m st with
                | (Return a, st') => k a st'
                | (Raise e, st') => (Raise e, st')
                end.
Proof. reflexivity. Qed.

Lemma bind_return {A B} (m : M St A) (k : A -> M St B) (st st' : St) (a : A) :
  m st = (Return a, st') -> (m ≫= k) st = k a st'.
Proof. intros H. by rewrite bind_run, H. Qed.

Lemma bind_ext {A B} (m : M St A) (k k' : A -> M St B) (st : St) :
  (forall a st', k a st' = k' a st') -> (m ≫= k) st = (m ≫= k') st.
Proof.
  intros Hk. rewrite !bind_run. destruct (m st) as [[a|e] st']; auto.
Qed.

Lemma bind_cong {A B} (m m' : M St A) (k k' : A -> M St B) (st : St) :
  m st = m' st -> (forall a st', k a st' = k' a st') ->
  (m ≫= k) st = (m' ≫= k') st.
Proof. intros Hm Hk. rewrite !bind_run, Hm. by destruct (m' st) as [[a|e] st']. Qed.

Lemma for_each_cons {A} (x : A) (l : list A) (body : A -> M St unit) (st : St) :
  for_each (x :: l) body st = (body x ;; for_each l body) st.
Proof. reflexivity. Qed.

Lemma for_each_app {A} (l l' : list A) (body : A -> M St unit) (st : St) :
  for_each (l ++ l') body st = (for_each l body ;; for_each l' body) st.
Proof.
  revert st. induction l as [|x l IH]; intros st; simpl; [done|].
  rewrite !bind_run. destruct (body x st) as [[[]|e] st']; [|done].
  by rewrite IH, bind_run.
Qed.

Lemma for_each_ext {A} (l : list A) (body body' : A -> M St unit) :
  (forall x st, x ∈ l -> body x st = body' x st) ->
  forall st, for_each l body st = for_each l body' st.
Proof.
  induction l as [|x l IH]; intros Hb st; simpl; [done|].
  rewrite !bind_run, (Hb x st) by left.
  destruct (body' x st) as [[[]|e] st']; [|done].
  apply IH. intros y st'' Hy. apply Hb. by right.
Qed.

End Monad.

Section Resolution.

Context {S : Type}.
Implicit Types (cls base : engine_class S) (typ : pytype).
Implicit Types (chain : list (engine_class S)).

Lemma mro_Subclass own base :
  mro (Subclass own base) = Subclass own base :: mro base.
Proof. reflexivity. Qed.

Lemma getattr_visitors_Subclass own base :
  getattr_visitors (Subclass own base)
  = match own with
    | Some tbl => Some tbl
    | None => getattr_visitors base
    end.
Proof. reflexivity. Qed.

Lemma resolve_Subclass own base typ :
  resolve (Subclass own base) typ
  = match own_entry (Subclass own base) typ with
    | Some hs => hs
    | None => resolve base typ
    end.
Proof. reflexivity. Qed.

Lemma first_entry_no_table chain typ :
  first_visitors chain = None -> first_entry chain typ = ∅.
Proof.
  induction chain as [|[[tbl|] anc] chain IH]; simpl; [done|done|auto].
Qed.

Lemma first_entry_nearest chain typ tbl hs :
  first_visitors chain = Some tbl -> tbl !! typ = Some hs ->
  first_entry chain typ = hs.
Proof.
  induction chain as [|[[tbl'|] anc] chain IH]; simpl; [done| |auto].
  unfold own_entry. simpl. by intros [= ->] ->.
Qed.

Lemma first_entry_skip (between chain : list (engine_class S)) typ :
  (forall c, c ∈ between -> own_entry c typ = None) ->
  first_entry (between ++ chain) typ = first_entry chain typ.
Proof.
  induction between as [|c between IH]; intros Hnone; simpl; [done|].
  rewrite (Hnone c) by left. apply IH. intros c' Hc'. apply Hnone. by right.
Qed.

Lemma first_entry_unregistered chain typ :
  (forall c, c ∈ chain -> own_entry c typ = None) -> first_entry chain typ = ∅.
Proof.
  intros Hnone. rewrite <- (app_nil_r chain). by rewrite first_entry_skip.
Qed.

(** Under single inheritance the loop over the MRO, with its inherited
    lookups and its [break], computes the walk along the chain on the
    classes' own tables. *)
Lemma visitorsFor_loop_cons cls chain typ :
  visitorsFor_loop (cls :: chain) typ
  = match getattr_visitors cls with
    | None => ∅
    | Some _visitors =>
        match _visitors !! typ with
        | Some m => m
        | None => visitorsFor_loop chain typ
        end
    end.
Proof. reflexivity. Qed.

Lemma own_entry_Subclass own base typ :
  own_entry (Subclass own base) typ = own ≫= (.!! typ).
Proof. reflexivity. Qed.

Lemma visitorsFor_resolve cls (thing : value) :
  single_inheritance cls ->
  _visitorsFor cls thing = resolve cls (type_of thing).
Proof.
  unfold _visitorsFor. generalize (type_of thing) as typ. intros typ.
  induction 1 as [|own base _ IH]; [done|].
  rewrite mro_Subclass, resolve_Subclass, visitorsFor_loop_cons.
  rewrite getattr_visitors_Subclass, own_entry_Subclass.
  destruct own as [tbl|]; cbn [mbind option_bind].
  - destruct (tbl !! typ); [done|apply IH].
  - destruct (getattr_visitors base) as [tbl|] eqn:Hg.
    + destruct (tbl !! typ) as [hs|] eqn:Hl; [|apply IH].
      symmetry. by eapply first_entry_nearest.
    + symmetry. by apply first_entry_no_table.
Qed.

Lemma resolve_skip (between : list (engine_class S)) (A B : engine_class S) typ :
  mro B = between ++ mro A ->
  (forall c, c ∈ between -> own_entry c typ = None) ->
  resolve B typ = resolve A typ.
Proof.
  intros Hmro Hnone. unfold resolve. rewrite Hmro. by apply first_entry_skip.
Qed.

Lemma resolve_unregistered cls typ :
  (forall c, c ∈ mro cls -> own_entry c typ = None) -> resolve cls typ = ∅.
Proof. apply first_entry_unregistered. Qed.

Lemma resolve_own cls typ hs :
  own_entry cls typ = Some hs -> resolve cls typ = hs.
Proof. intros H. unfold resolve, mro. simpl. by rewrite H. Qed.

Lemma Visitor_visit_guarded cls (self : hooks S) (obj : value) (ex : extra) st :
  Visitor_visit cls self obj ex st
  = guarded self (_visitorsFor cls obj !! None) [obj] ex (dispatch self obj ex) st.
Proof.
  unfold Visitor_visit, guarded.
  destruct (_visitorsFor cls obj !! None) as [f|]; [|done].
  rewrite !bind_run. simpl.
  by destruct (meth_call f self (obj :: args ex) (kwargs ex) st) as [[ret|e] st'].
Qed.

End Resolution.

Section Traversal.

Context {S : Type}.
Implicit Types (cls : engine_class S) (self : hooks S) (obj v : value).
Implicit Types (ex : extra) (key : string) (d : list (string * value)).
Implicit Types (st : S) (f : method S).

Lemma getattr_field obj d key v st :
  py_dict obj = Some d -> assoc key d = Some v ->
  getattr obj key st = (Return v, st).
Proof.
  destruct obj; simpl; try done; intros [= ->] Hv; by rewrite Hv.
Qed.

Lemma assoc_is_Some {A} key (l : list (string * A)) :
  key ∈ l.*1 -> is_Some (assoc key l).
Proof.
  induction l as [|[k a] l IH]; simpl.
  - by intros ?%elem_of_nil.
  - intros [->|Hin]%elem_of_cons; case_decide; eauto; done.
Qed.

Lemma assoc_elem_of {A} key (a : A) (l : list (string * A)) :
  assoc key l = Some a -> (key, a) ∈ l.
Proof.
  induction l as [|[k a'] l IH]; simpl; [done|].
  case_decide as Hk; [intros [= ->]; subst; left|right; auto].
Qed.

Lemma is_private_String (c : ascii) (rest : string) :
  is_private (String c rest) = bool_decide (c = "_"%char).
Proof. reflexivity. Qed.

(** A private field is passed over. *)
Lemma visitObject_field_private self (hs : handler_set S) dv obj ex key st :
  is_private key = true ->
  visitObject_field self hs dv obj ex key st = (Return tt, st).
Proof.
  destruct key as [|c rest]; [done|]. rewrite is_private_String. intros Hc.
  unfold visitObject_field. rewrite bind_run. simpl. by rewrite Hc.
Qed.

(** On a public field the body of the loop is [field_step]. *)
Lemma visitObject_field_public cls self obj ex key st :
  key <> "" -> is_private key = false ->
  visitObject_field self (_visitorsFor cls obj)
    (_visitorsFor cls obj !! Some "*") obj ex key st
  = field_step cls self obj ex key st.
Proof.
  destruct key as [|c rest]; [done|]. rewrite is_private_String. intros _ Hc.
  unfold visitObject_field, field_step, field_handler.
  rewrite bind_run. simpl. rewrite Hc.
  apply bind_ext. intros v st'. unfold guarded.
  destruct (_visitorsFor cls obj !! Some (String c rest)) as [f|]; simpl.
  - rewrite !bind_run.
    by destruct (meth_call f self _ _ st') as [[ret|e] st''].
  - destruct (_visitorsFor cls obj !! Some "*") as [f|]; simpl; [|done].
    rewrite !bind_run.
    by destruct (meth_call f self _ _ st') as [[ret|e] st''].
Qed.

Lemma visitObject_loop cls self obj ex (keys : list string) :
  Forall (fun key => key <> "") keys ->
  forall st,
    for_each keys (visitObject_field self (_visitorsFor cls obj)
                     (_visitorsFor cls obj !! Some "*") obj ex) st
    = for_each (filter (fun key => is_private key = false) keys)
        (field_step cls self obj ex) st.
Proof.
  induction 1 as [|key keys Hkey _ IH]; intros st; [done|].
  rewrite filter_cons. destruct (is_private key) eqn:Hp.
  - rewrite decide_False by done. rewrite for_each_cons, bind_run.
    by rewrite visitObject_field_private.
  - rewrite decide_True by done. rewrite !for_each_cons, !bind_run.
    rewrite visitObject_field_public by done.
    by destruct (field_step cls self obj ex key st) as [[[]|e] st'].
Qed.

(** [visitObject] runs [field_step] over the public fields, in sorted
    order. *)
Lemma Visitor_visitObject_fields cls self obj ex d st :
  py_dict obj = Some d ->
  Forall (fun key => key <> "") d.*1 ->
  Visitor_visitObject cls self obj ex st
  = for_each (public_fields d) (field_step cls self obj ex) st.
Proof.
  intros Hd Hne. unfold Visitor_visitObject, vars. rewrite Hd, bind_run. simpl.
  apply visitObject_loop. by rewrite sorted_Permutation.
Qed.

(** A field step whose handler returned [ret]. *)
Lemma field_step_handled cls self obj ex d key v f ret st st' :
  py_dict obj = Some d -> assoc key d = Some v ->
  field_handler (_visitorsFor cls obj) key = Some f ->
  meth_call f self (obj :: VStr key :: v :: args ex) (kwargs ex) st
    = (Return ret, st') ->
  field_step cls self obj ex key st
  = (if stops self ret then mret tt else visitAttr self obj key v ex) st'.
Proof.
  intros Hd Hv Hf Hcall. unfold field_step.
  rewrite (bind_return _ _ _ _ _ (getattr_field _ _ _ _ _ Hd Hv)).
  rewrite Hf. unfold guarded. simpl. by rewrite (bind_return _ _ _ _ _ Hcall).
Qed.

(** The whole-node stage of [visit] when the handler returned [ret]. *)
Lemma Visitor_visit_handled cls self obj ex f ret st st' :
  _visitorsFor cls obj !! None = Some f ->
  meth_call f self (obj :: args ex) (kwargs ex) st = (Return ret, st') ->
  Visitor_visit cls self obj ex st
  = (if stops self ret then mret tt else dispatch self obj ex) st'.
Proof.
  intros Hf Hcall. rewrite Visitor_visit_guarded, Hf. unfold guarded. simpl.
  by rewrite (bind_return _ _ _ _ _ Hcall).
Qed.

(** Object traversal at the public field [key], reached in state [st]
    after the keys [before] it, when the handler of [key] returned [ret]. *)
Lemma Visitor_visitObject_handled cls self obj ex d before key after v f ret
    st0 st st' :
  py_dict obj = Some d ->
  sorted d.*1 = before ++ key :: after ->
  visitObject_from cls self obj ex before st0 = (Return tt, st) ->
  key <> "" -> is_private key = false ->
  assoc key d = Some v ->
  field_handler (_visitorsFor cls obj) key = Some f ->
  meth_call f self (obj :: VStr key :: v :: args ex) (kwargs ex) st
    = (Return ret, st') ->
  Visitor_visitObject cls self obj ex st0
  = ((if stops self ret then mret tt else visitAttr self obj key v ex) ;;
     visitObject_from cls self obj ex after) st'.
Proof.
  intros Hd Hkeys Hbefore Hkey Hpub Hv Hf Hcall.
  unfold Visitor_visitObject, vars. rewrite Hd, bind_run. simpl.
  rewrite Hkeys. unfold visitObject_from in *.
  rewrite for_each_app, (bind_return _ _ _ _ _ Hbefore).
  rewrite for_each_cons, !bind_run.
  rewrite visitObject_field_public by done.
  by rewrite (field_step_handled _ _ _ _ _ _ _ _ _ _ _ Hd Hv Hf Hcall).
Qed.

End Traversal.

(** ** The stop/continue protocol *)

Section Protocol.

Context {S : Type}.
Implicit Types (cls : engine_class S) (self : hooks S) (obj v : value).
Implicit Types (ex : extra) (key : string) (d : list (string * value)).
Implicit Types (st : S) (f : method S).

(** C1. When the whole-node handler registered for a visited node returns
    [False], [visit] returns at once in the state the handler left, for any
    hooks of [self]: none of the object, sequence, mapping or leaf
    traversals is dispatched to.  When the handler of a field of a
    record-shaped node returns [False], object traversal carries on with the
    fields after it, from the state the handler left: [visitAttr] is not
    called for that field, so its value is not visited. *)
Theorem C1_explicit_stop :
  (forall cls self obj ex f st st',
     _visitorsFor cls obj !! None = Some f ->
     meth_call f self (obj :: args ex) (kwargs ex) st
       = (Return (VBool false), st') ->
     Visitor_visit cls self obj ex st = (Return tt, st'))
  /\ (forall cls self obj ex d before key after v f st0 st st',
        py_dict obj = Some d ->
        sorted d.*1 = before ++ key :: after ->
        visitObject_from cls self obj ex before st0 = (Return tt, st) ->
        key <> "" -> is_private key = false ->
        assoc key d = Some v ->
        field_handler (_visitorsFor cls obj) key = Some f ->
        meth_call f self (obj :: VStr key :: v :: args ex) (kwargs ex) st
          = (Return (VBool false), st') ->
        Visitor_visitObject cls self obj ex st0
        = visitObject_from cls self obj ex after st').
Proof.
  split.
  - intros * Hf Hcall. by rewrite (Visitor_visit_handled _ _ _ _ _ _ _ _ Hf Hcall).
  - intros * Hd Hkeys Hbefore Hkey Hpub Hv Hf Hcall.
    by rewrite (Visitor_visitObject_handled _ _ _ _ _ _ _ _ _ _ _ _ _ _
                  Hd Hkeys Hbefore Hkey Hpub Hv Hf Hcall).
Qed.

(** C2. When a handler returns [None], the default traversal of the node
    (the dispatch on its shape), respectively of the field (the call of
    [visitAttr]), is run exactly when [defaultStop] is false; when it is
    true, [visit] returns at once and object traversal carries on with the
    next field. *)
Theorem C2_no_signal :
  (forall cls self obj ex f st st',
     _visitorsFor cls obj !! None = Some f ->
     meth_call f self (obj :: args ex) (kwargs ex) st = (Return VNone, st') ->
     Visitor_visit cls self obj ex st
     = if defaultStop self then (Return tt, st') else dispatch self obj ex st')
  /\ (forall cls self obj ex d before key after v f st0 st st',
        py_dict obj = Some d ->
        sorted d.*1 = before ++ key :: after ->
        visitObject_from cls self obj ex before st0 = (Return tt, st) ->
        key <> "" -> is_private key = false ->
        assoc key d = Some v ->
        field_handler (_visitorsFor cls obj) key = Some f ->
        meth_call f self (obj :: VStr key :: v :: args ex) (kwargs ex) st
          = (Return VNone, st') ->
        Visitor_visitObject cls self obj ex st0
        = if defaultStop self
          then visitObject_from cls self obj ex after st'
          else (visitAttr self obj key v ex ;;
                visitObject_from cls self obj ex after) st').
Proof.
  split.
  - intros * Hf Hcall.
    rewrite (Visitor_visit_handled _ _ _ _ _ _ _ _ Hf Hcall).
    unfold stops. simpl. by destruct (defaultStop self).
  - intros * Hd Hkeys Hbefore Hkey Hpub Hv Hf Hcall.
    rewrite (Visitor_visitObject_handled _ _ _ _ _ _ _ _ _ _ _ _ _ _
               Hd Hkeys Hbefore Hkey Hpub Hv Hf Hcall).
    unfold stops. simpl. by destruct (defaultStop self).
Qed.

(** C9. The stop test is [ret == False], an equality and not an identity
    test: every handler result that compares equal to [False] stops the
    traversal of the node, respectively of the field, as [False] does; the
    integer [0] and the float zeros are such results. *)
Theorem C9_equal_to_False (ret : value) :
  eq_False ret = true ->
  (forall cls self obj ex f st st',
     _visitorsFor cls obj !! None = Some f ->
     meth_call f self (obj :: args ex) (kwargs ex) st = (Return ret, st') ->
     Visitor_visit cls self obj ex st = (Return tt, st'))
  /\ (forall cls self obj ex d before key after v f st0 st st',
        py_dict obj = Some d ->
        sorted d.*1 = before ++ key :: after ->
        visitObject_from cls self obj ex before st0 = (Return tt, st) ->
        key <> "" -> is_private key = false ->
        assoc key d = Some v ->
        field_handler (_visitorsFor cls obj) key = Some f ->
        meth_call f self (obj :: VStr key :: v :: args ex) (kwargs ex) st
          = (Return ret, st') ->
        Visitor_visitObject cls self obj ex st0
        = visitObject_from cls self obj ex after st')
  /\ eq_False (VBool false) = true
  /\ eq_False (VInt 0) = true
  /\ (forall sign, eq_False (VFloat (S754_zero sign)) = true).
Proof.
  intros Heq. split; [|split; [|done]].
  - intros * Hf Hcall.
    rewrite (Visitor_visit_handled _ _ _ _ _ _ _ _ Hf Hcall).
    unfold stops. by rewrite Heq.
  - intros * Hd Hkeys Hbefore Hkey Hpub Hv Hf Hcall.
    rewrite (Visitor_visitObject_handled _ _ _ _ _ _ _ _ _ _ _ _ _ _
               Hd Hkeys Hbefore Hkey Hpub Hv Hf Hcall).
    unfold stops. by rewrite Heq.
Qed.

End Protocol.

(** ** Resolution along the inheritance chain *)

Section Inheritance.

Context {S : Type}.
Implicit Types (cls : engine_class S) (self : hooks S).

(** C3, amended.  Let [B] be an engine type built by single inheritance
    and derived from [A], with the classes [between] before [A] on its
    inheritance chain ([B] included).  If [A] has the table entry [hsA] for
    the exact type [T] and no class of [between] has an entry for [T], then
    resolving an instance of [T] through [B] gives [hsA], and [visit]
    through [B] invokes the whole-node handler of [hsA].  For every engine
    type built by single inheritance, resolution is the walk along the
    chain from the most derived class that returns the first table entry
    found for the exact type of the node; when no class of the chain has
    one it is the empty handler set, and [visit] only does the default
    traversal. *)
Theorem C3_inherited_resolution (A B : engine_class S)
    (between : list (engine_class S))
    (T : pytype) (hsA : handler_set S) (thing : value) :
  single_inheritance B ->
  mro B = between ++ mro A ->
  own_entry A T = Some hsA ->
  (forall c, c ∈ between -> own_entry c T = None) ->
  type_of thing = T ->
  _visitorsFor B thing = hsA
  /\ (forall self ex st,
        Visitor_visit B self thing ex st
        = guarded self (hsA !! None) [thing] ex (dispatch self thing ex) st)
  /\ (forall cls,
        single_inheritance cls -> _visitorsFor cls thing = resolve cls T)
  /\ (forall cls,
        single_inheritance cls ->
        (forall c, c ∈ mro cls -> own_entry c T = None) ->
        _visitorsFor cls thing = ∅
        /\ forall self ex st,
             Visitor_visit cls self thing ex st = dispatch self thing ex st).
Proof.
  intros HB Hmro HA Hbetween <-.
  assert (_visitorsFor B thing = hsA) as Hres.
  { rewrite visitorsFor_resolve, (resolve_skip _ _ _ _ Hmro Hbetween) by done.
    by apply resolve_own. }
  split; [done|]. split; [|split].
  - intros self ex st. by rewrite Visitor_visit_guarded, Hres.
  - intros cls Hcls. by apply visitorsFor_resolve.
  - intros cls Hcls Hnone.
    assert (_visitorsFor cls thing = ∅) as Hempty
      by (by rewrite visitorsFor_resolve, resolve_unregistered).
    split; [done|]. intros self ex st.
    by rewrite Visitor_visit_guarded, Hempty, lookup_empty.
Qed.

End Inheritance.

(** ** Shapes *)

Section Shapes.

Context {S : Type}.
Implicit Types (cls : engine_class S) (self : hooks S) (obj : value).

Lemma shape_of_tests obj :
  shape_of obj
  = if hasattr_dict obj && negb (isinstance_Enum obj) then RecordShaped
    else if isinstance_list obj then Sequence
    else if isinstance_dict obj then Mapping
    else Leaf.
Proof. by destruct obj. Qed.

(** C6. After the whole-node handler stage, [visit] treats a value
    according to its one shape: a value with an attribute dictionary that
    is not an enum member goes to object traversal; otherwise a list goes
    to [visitList], which visits its elements in order; otherwise a dict
    goes to [visitDict], which visits its values, not its keys, in the
    order of the dict; every other value, enum members included, goes to
    [visitLeaf], which does nothing. *)
Theorem C6_shape_dispatch cls self obj (ex : extra) (st : S) :
  Visitor_visit cls self obj ex st
  = guarded self (_visitorsFor cls obj !! None) [obj] ex
      (fun st' =>
         match shape_of obj with
         | RecordShaped => visitObject self obj ex st'
         | Sequence => visitList self obj ex st'
         | Mapping => visitDict self obj ex st'
         | Leaf => visitLeaf self obj ex st'
         end) st
  /\ (shape_of obj = RecordShaped
      <-> is_Some (py_dict obj) /\ isinstance_Enum obj = false)
  /\ (shape_of obj = Sequence
      <-> shape_of obj <> RecordShaped /\ isinstance_list obj = true)
  /\ (shape_of obj = Mapping
      <-> shape_of obj <> RecordShaped /\ isinstance_list obj = false
          /\ isinstance_dict obj = true)
  /\ (isinstance_Enum obj = true -> shape_of obj = Leaf)
  /\ (forall items,
        Visitor_visitList self (VList items) ex st
        = for_each items (fun value => visit self value ex) st)
  /\ (forall entries,
        Visitor_visitDict self (VDict entries) ex st
        = for_each entries.*2 (fun value => visit self value ex) st)
  /\ Visitor_visitLeaf self obj ex st = (Return tt, st).
Proof.
  split.
  { rewrite Visitor_visit_guarded.
    destruct (_visitorsFor cls obj !! None) as [f|]; simpl.
    - apply bind_ext. intros ret st'. destruct (stops self ret); [done|].
      unfold dispatch. rewrite shape_of_tests.
      destruct (hasattr_dict obj && negb (isinstance_Enum obj)); [done|].
      destruct (isinstance_list obj); [done|].
      by destruct (isinstance_dict obj).
    - unfold dispatch. rewrite shape_of_tests.
      destruct (hasattr_dict obj && negb (isinstance_Enum obj)); [done|].
      destruct (isinstance_list obj); [done|].
      by destruct (isinstance_dict obj). }
  split; [|split; [|split; [|split]]].
  - destruct obj; simpl; split; try done; try (by intros [[? ?] ?]); eauto.
  - destruct obj; simpl; split; try done; by intros [].
  - destruct obj; simpl; split; try done; by intros (? & ? & ?).
  - by destruct obj.
  - done.
Qed.

End Shapes.

(** ** Object traversal *)

Section ObjectTraversal.

Context {S : Type}.
Implicit Types (cls : engine_class S) (self : hooks S) (obj v : value).
Implicit Types (ex : extra) (key : string) (d : list (string * value)).

Lemma StronglySorted_filter {A} (R : relation A) (P : A -> Prop)
    `{!forall x, Decision (P x)} (l : list A) :
  StronglySorted R l -> StronglySorted R (filter P l).
Proof.
  induction 1 as [|x l _ IH Hx]; [constructor|].
  rewrite filter_cons. case_decide; [|done].
  constructor; [done|]. apply Forall_forall.
  intros y [_ Hy]%list_elem_of_filter. by eapply Forall_forall in Hx.
Qed.

Lemma public_fields_order_independent d d' :
  d'.*1 ≡ₚ d.*1 -> public_fields d' = public_fields d.
Proof. intros Hp. unfold public_fields. by rewrite (sorted_order_independent _ _ Hp). Qed.

(** X13. For a record-shaped node whose fields all have a non-empty name,
    object traversal runs the field step on exactly the fields whose name
    does not begin with an underscore, each as often as it occurs, in
    sorted order of the names; a node with the same fields declared in
    another order is traversed in the same order. *)
Lemma visitObject_sorted_public_fields cls self obj ex d :
  py_dict obj = Some d ->
  Forall (fun key => key <> "") d.*1 ->
  (forall st : S,
     Visitor_visitObject cls self obj ex st
     = for_each (public_fields d) (field_step cls self obj ex) st)
  /\ (forall key, key ∈ public_fields d <-> key ∈ d.*1 /\ is_private key = false)
  /\ public_fields d ≡ₚ filter (fun key => is_private key = false) d.*1
  /\ StronglySorted str_le (public_fields d)
  /\ (forall d', d'.*1 ≡ₚ d.*1 -> public_fields d' = public_fields d).
Proof.
  intros Hd Hne. split; [|split; [|split; [|split]]].
  - intros st. by apply Visitor_visitObject_fields.
  - intros key. unfold public_fields.
    rewrite list_elem_of_filter, sorted_elem_of. tauto.
  - unfold public_fields. by rewrite sorted_Permutation.
  - apply StronglySorted_filter, Sorted_StronglySorted; [apply _|].
    apply sorted_Sorted.
  - apply public_fields_order_independent.
Qed.

Lemma str_le_empty (key : string) : str_le "" key.
Proof. by destruct key. Qed.

(** The empty name sorts first. *)
Lemma sorted_empty_first (keys : list string) :
  "" ∈ keys -> exists rest, sorted keys = "" :: rest.
Proof.
  intros Hin%sorted_elem_of.
  pose proof (Sorted_StronglySorted _ _ (sorted_Sorted keys)) as Hs.
  destruct (sorted keys) as [|key rest]; [by apply elem_of_nil in Hin|].
  exists rest. f_equal. apply elem_of_cons in Hin as [<-|Hin]; [done|].
  inversion Hs as [|? ? _ Hkey]; subst.
  apply (anti_symm str_le); [|apply str_le_empty].
  by eapply Forall_forall in Hkey.
Qed.

(** C5, on a node that has a field with the empty name: the code does not
    enumerate the fields whose names do not begin with an underscore.  The
    empty name does not begin with one, it sorts first, and the privacy
    test [key[0]] raises [IndexError] on it: object traversal raises at
    once, in the state it started from, before any field is visited. *)
Theorem C5_empty_field_name cls self obj ex d (st : S) :
  py_dict obj = Some d ->
  "" ∈ d.*1 ->
  is_private "" = false
  /\ "" ∈ public_fields d
  /\ Visitor_visitObject cls self obj ex st = (Raise IndexError, st).
Proof.
  intros Hd Hin. split; [done|]. split.
  - unfold public_fields. rewrite list_elem_of_filter, sorted_elem_of. done.
  - destruct (sorted_empty_first _ Hin) as [rest Hrest].
    unfold Visitor_visitObject, vars. rewrite Hd, bind_run. simpl.
    by rewrite Hrest.
Qed.


End ObjectTraversal.

(** ** Registration *)

Section Registration.

Context {S : Type}.
Implicit Types (tbl : table S) (m : method S) (clazz : pytype).
Implicit Types (attr : option string) (celf : engine_class S).

Lemma in_table_cases tbl clazz attr :
  in_table tbl clazz attr \/ ~ in_table tbl clazz attr.
Proof.
  unfold in_table. destruct (tbl !! clazz) as [hs|]; [|right; by intros (? & ? & ?)].
  destruct (hs !! attr) as [m|] eqn:Hm; [left; eauto|].
  right. intros (? & [= <-] & [? ?]). congruence.
Qed.

Lemma register_one_fresh clazz m attr tbl :
  ~ in_table tbl clazz attr ->
  exists tbl', register_one clazz m attr tbl = (Return tt, tbl')
    /\ (exists hs, tbl' !! clazz = Some hs /\ hs !! attr = Some m)
    /\ forall c a, in_table tbl c a -> in_table tbl' c a.
Proof.
  intros Hfresh. unfold register_one.
  destruct (default ∅ (tbl !! clazz) !! attr) as [m'|] eqn:Hm.
  { destruct Hfresh. destruct (tbl !! clazz) as [hs|] eqn:Hhs; [|done].
    exists hs. eauto. }
  eexists. split; [done|]. split.
  - eexists. rewrite lookup_insert_eq. split; [done|].
    by rewrite lookup_insert_eq.
  - intros c a (hs & Hhs & Ha). destruct (decide (c = clazz)) as [->|Hc].
    + eexists. rewrite lookup_insert_eq. split; [done|]. rewrite Hhs. simpl.
      destruct (decide (attr = a)) as [->|Hne].
      * rewrite lookup_insert_eq. eauto.
      * by rewrite lookup_insert_ne.
    + exists hs. by rewrite lookup_insert_ne.
Qed.

Lemma register_one_duplicate clazz m attr tbl :
  in_table tbl clazz attr ->
  register_one clazz m attr tbl
  = (Raise (AssertionError (duplicate_msg clazz attr)), tbl).
Proof.
  intros (hs & Hhs & [m' Hm']). unfold register_one.
  by rewrite Hhs; simpl; rewrite Hm'.
Qed.

Lemma reg_run_iff {A} (asked asked' : pytype -> option string -> Prop) tbl
    (run : outcome A * table S) :
  (forall c a, asked c a <-> asked' c a) ->
  reg_run asked tbl run -> reg_run asked' tbl run.
Proof.
  intros Hiff (Hmono & Hres & Hraise). split; [done|]. split.
  - destruct run.1 as [x|e].
    + intros c a ?%Hiff. auto.
    + destruct Hres as (c & a & ? & ?%Hiff & ?). eauto 6.
  - intros (c & a & ?%Hiff & ?). eauto.
Qed.

Lemma reg_run_ret {A} (x : A) tbl :
  reg_run (fun _ _ => False) tbl (Return x, tbl).
Proof.
  repeat split; simpl; [done|done|]. by intros (? & ? & [] & _).
Qed.

Lemma reg_run_seq {X Y : Type}
    (asked1 asked2 : pytype -> option string -> Prop)
    (m1 : M (table S) X) (m2 : M (table S) Y) tbl :
  reg_run asked1 tbl (m1 tbl) ->
  (forall tbl', reg_run asked2 tbl' (m2 tbl')) ->
  reg_run (fun c a => asked1 c a \/ asked2 c a) tbl ((m1 ;; m2) tbl).
Proof.
  intros (Hmono & Hres & Hraise) H2. rewrite bind_run.
  destruct (m1 tbl) as [[x|e] tbl1]; simpl in *.
  - destruct (H2 tbl1) as (Hmono2 & Hres2 & Hraise2). split; [eauto|]. split.
    + destruct (m2 tbl1).1 as [y|e].
      * intros c a [?|?]; eauto.
      * destruct Hres2 as (c & a & ? & ? & ?). exists c, a. auto.
    + intros (c & a & [H1|Ha] & Hin).
      * destruct Hraise as [e [=]]. eauto.
      * apply Hraise2. eauto.
  - split; [done|]. split; [|eauto].
    destruct Hres as (c & a & ? & ? & ?). exists c, a. auto.
Qed.

Lemma reg_run_loop {A} (asked : A -> pytype -> option string -> Prop)
    (body : A -> M (table S) unit) (xs : list A) :
  (forall x tbl, reg_run (asked x) tbl (body x tbl)) ->
  forall tbl,
    reg_run (fun c a => exists x, x ∈ xs /\ asked x c a) tbl
      (for_each xs body tbl).
Proof.
  intros Hbody. induction xs as [|x xs IH]; intros tbl.
  - eapply reg_run_iff; [|apply reg_run_ret]. intros c a. split; [done|].
    by intros (? & ?%elem_of_nil & _).
  - rewrite for_each_cons.
    eapply reg_run_iff; [|apply reg_run_seq; [apply Hbody|apply IH]].
    intros c a. split.
    + intros [?|(y & ? & ?)]; [exists x|exists y]; split; try done;
        [left|by right].
    + intros (y & [->|?]%elem_of_cons & ?); [by left|right; eauto].
Qed.

Lemma register_one_run clazz m attr tbl :
  reg_run (fun c a => c = clazz /\ a = attr) tbl (register_one clazz m attr tbl).
Proof.
  destruct (in_table_cases tbl clazz attr) as [Hdup|Hfresh].
  - rewrite (register_one_duplicate _ _ _ _ Hdup).
    repeat split; simpl; eauto 7.
  - destruct (register_one_fresh _ m _ _ Hfresh)
      as (tbl' & -> & (hs & Hhs & Hm) & Hmono).
    repeat split; simpl; [done|intros c a [-> ->]; exists hs; eauto|].
    by intros (c & a & [-> ->] & ?).
Qed.

Lemma setdefault_run clazz tbl :
  reg_run (fun _ _ => False) tbl (setdefault clazz tbl).
Proof.
  unfold setdefault. destruct (tbl !! clazz) as [hs|] eqn:Hhs.
  { apply (reg_run_ret hs). }
  repeat split; simpl; [|done|by intros (? & ? & [] & _)].
  intros c a (hs & Hc & Ha). exists hs. split; [|done].
  rewrite lookup_insert_ne; [done|congruence].
Qed.

(** The loops of [wrapper], once the name of the function is accepted. *)
Lemma wrapper_run (clazzes_attrs : list (clazzes_arg * attrs_arg)) m tbl :
  meth_name m = "visit" ->
  reg_run (covers clazzes_attrs) tbl (wrapper clazzes_attrs m tbl).
Proof.
  intros Hname. unfold wrapper. rewrite bind_run, Hname. simpl.
  eapply reg_run_iff; [|apply (reg_run_loop
    (fun '(clazzes, attrs) c a => c ∈ as_clazzes clazzes /\ a ∈ as_attrs attrs))].
  - intros c a. unfold covers. split.
    + intros ([clazzes attrs] & ? & ?). eauto.
    + intros (clazzes & attrs & ? & ?). by exists (clazzes, attrs).
  - intros [clazzes attrs] tbl'.
    eapply reg_run_iff; [|apply (reg_run_loop
      (fun clazz c a => c = clazz /\ a ∈ as_attrs attrs))].
    + intros c a. split; [by intros (? & ? & -> & ?)|intros [? ?]; eauto].
    + intros clazz tbl''.
      eapply reg_run_iff; [|apply reg_run_seq;
        [apply setdefault_run|
         apply (reg_run_loop (fun attr c a => c = clazz /\ a = attr))]].
      * intros c a. split.
        -- intros [[]|(? & ? & -> & ->)]. done.
        -- intros [-> ?]. right. eauto.
      * intros attr tbl3. apply register_one_run.
Qed.

Lemma registered_own_table celf clazz attr :
  registered celf clazz attr <-> in_table (own_table celf) clazz attr.
Proof.
  unfold registered, in_table, own_entry, own_table.
  destruct celf as [[tbl|] anc]; simpl; [done|].
  split; intros (hs & Hhs & ?); by rewrite ?lookup_empty in Hhs.
Qed.

Lemma decorate_derived celf
    (clazzes_attrs : list (clazzes_arg * attrs_arg)) m :
  ancestors celf <> [] ->
  decorate celf clazzes_attrs m
  = ((wrapper clazzes_attrs m (own_table celf)).1,
     Class (Some (wrapper clazzes_attrs m (own_table celf)).2) (ancestors celf)).
Proof.
  destruct celf as [own [|c anc]]; [done|]. intros _.
  unfold decorate, own_table, with_own_table. simpl.
  by destruct (wrapper clazzes_attrs m (default ∅ own)).
Qed.

Lemma decorate_Subclass own base
    (clazzes_attrs : list (clazzes_arg * attrs_arg)) m :
  decorate (Subclass own base) clazzes_attrs m
  = ((wrapper clazzes_attrs m (default ∅ own)).1,
     Subclass (Some (wrapper clazzes_attrs m (default ∅ own)).2) base).
Proof. by apply decorate_derived. Qed.

Lemma decorate_ancestors celf
    (clazzes_attrs : list (clazzes_arg * attrs_arg)) m :
  ancestors (decorate celf clazzes_attrs m).2 = ancestors celf.
Proof.
  destruct celf as [own [|c anc]]; [done|].
  by rewrite decorate_derived.
Qed.

Lemma wrapper_name (clazzes_attrs : list (clazzes_arg * attrs_arg)) m tbl :
  meth_name m <> "visit" ->
  wrapper clazzes_attrs m tbl = (Raise (AssertionError ""), tbl).
Proof.
  intros Hname. unfold wrapper. rewrite bind_run.
  by rewrite bool_decide_eq_false_2.
Qed.

(** A registration statement on an engine type, seen on the pairs
    registered in the type. *)
Lemma decorate_run celf (clazzes_attrs : list (clazzes_arg * attrs_arg)) m :
  ancestors celf <> [] -> meth_name m = "visit" ->
  (forall c a, registered celf c a ->
               registered (decorate celf clazzes_attrs m).2 c a)
  /\ match (decorate celf clazzes_attrs m).1 with
     | Return _ => forall c a, covers clazzes_attrs c a ->
                               registered (decorate celf clazzes_attrs m).2 c a
     | Raise e => exists c a, e = AssertionError (duplicate_msg c a)
                    /\ covers clazzes_attrs c a
                    /\ registered (decorate celf clazzes_attrs m).2 c a
     end
  /\ ((exists c a, covers clazzes_attrs c a /\ registered celf c a) ->
      exists e, (decorate celf clazzes_attrs m).1 = Raise e).
Proof.
  intros Hcelf Hname. rewrite decorate_derived by done. simpl.
  destruct (wrapper_run clazzes_attrs m (own_table celf) Hname)
    as (Hmono & Hres & Hraise).
  split; [|split].
  - intros c a ?%registered_own_table. apply registered_own_table. auto.
  - destruct (wrapper clazzes_attrs m (own_table celf)).1 as [[]|e].
    + intros c a ?. apply registered_own_table. auto.
    + destruct Hres as (c & a & ? & ? & ?). exists c, a.
      split; [done|]. split; [done|]. by apply registered_own_table.
  - intros (c & a & ? & ?%registered_own_table). apply Hraise. eauto.
Qed.

Lemma decorate_Return celf (clazzes_attrs : list (clazzes_arg * attrs_arg)) m
    celf' :
  decorate celf clazzes_attrs m = (Return tt, celf') ->
  ancestors celf <> [] /\ meth_name m = "visit".
Proof.
  intros Hrun. destruct celf as [own [|c anc]]; [done|]. split; [done|].
  destruct (decide (meth_name m = "visit")) as [|Hname]; [done|].
  by rewrite decorate_derived, wrapper_name in Hrun.
Qed.

(** Registering one pair that the engine type does not have yet. *)
Lemma decorate_fresh celf clazz attr m :
  ancestors celf <> [] ->
  meth_name m = "visit" ->
  ~ registered celf clazz attr ->
  exists tbl hs,
    decorate celf [(OneClass clazz, AttrTuple [attr])] m
    = (Return tt, Class (Some tbl) (ancestors celf))
    /\ tbl !! clazz = Some hs /\ hs !! attr = Some m.
Proof.
  intros Hcelf Hname Hfresh. rewrite decorate_derived by done. unfold wrapper.
  rewrite bind_run, Hname. simpl.
  assert (~ in_table (own_table celf) clazz attr) as Hfresh'
    by (by rewrite <- registered_own_table).
  rewrite !bind_run.
  destruct (setdefault clazz (own_table celf)) as [r tbl0] eqn:Hset.
  assert (exists hs0, r = Return hs0 /\ ~ in_table tbl0 clazz attr)
    as (hs0 & -> & Hfresh0).
  { unfold setdefault in Hset.
    destruct (own_table celf !! clazz) eqn:Hl; injection Hset as <- <-;
      eexists; (split; [done|]); [done|].
    intros (hs & Hhs & Ha). rewrite lookup_insert_eq in Hhs.
    injection Hhs as <-. rewrite lookup_empty in Ha. by destruct Ha. }
  rewrite !bind_run.
  destruct (register_one_fresh _ m _ _ Hfresh0) as (tbl & -> & (hs & ? & ?) & _).
  simpl. eauto.
Qed.

(** A class that has an entry of its own for the type resolves to it. *)
Lemma visitorsFor_own (cls : engine_class S) (thing : value) hs :
  own_entry cls (type_of thing) = Some hs -> _visitorsFor cls thing = hs.
Proof.
  destruct cls as [[tbl|] anc]; [|done]. unfold own_entry. simpl. intros Hhs.
  unfold _visitorsFor, mro. simpl. by rewrite Hhs.
Qed.

Lemma decorate_fresh_subclass base clazz attr m :
  meth_name m = "visit" ->
  decorate (Subclass None base) [(OneClass clazz, AttrTuple [attr])] m
  = (Return tt, Subclass (Some {[ clazz := {[ attr := m ]} ]}) base).
Proof.
  intros Hname.
  assert (setdefault clazz (∅ : table S) = (Return ∅, <[clazz := ∅]> ∅)) as Hset
    by (unfold setdefault; by rewrite lookup_empty).
  assert (register_one clazz m attr (<[clazz := ∅]> ∅)
          = (Return tt, {[ clazz := {[ attr := m ]} ]})) as Hone.
  { unfold register_one. rewrite lookup_insert_eq. simpl.
    by rewrite lookup_empty, insert_insert_eq, !insert_empty. }
  rewrite decorate_Subclass. unfold wrapper.
  rewrite bind_run, Hname. simpl.
  rewrite bind_run, bind_run, (bind_return _ _ _ _ _ Hset).
  by rewrite bind_run, Hone.
Qed.

Lemma decorate_duplicate celf clazz attr m :
  ancestors celf <> [] ->
  registered celf clazz attr -> meth_name m = "visit" ->
  decorate celf [(OneClass clazz, AttrTuple [attr])] m
  = (Raise (AssertionError (duplicate_msg clazz attr)), celf).
Proof.
  intros Hcelf Hreg Hname. rewrite decorate_derived by done.
  destruct celf as [[tbl|] anc]; [|by destruct Hreg as (? & [=] & _)].
  unfold wrapper, own_table. simpl.
  rewrite bind_run, Hname. simpl. rewrite !bind_run.
  apply registered_own_table in Hreg. unfold own_table in Hreg. simpl in Hreg.
  pose proof Hreg as (hs & Hhs & _).
  unfold setdefault. rewrite Hhs. rewrite !bind_run.
  by rewrite (register_one_duplicate _ _ _ _ Hreg).
Qed.

(** C4. Within one engine type a pair (node type, field selector) can be
    registered once: a registration that asks again for a pair an earlier
    one of the same engine type registered raises, when it is declared, the
    assertion error that names a node type and selector it asked for and
    the table already holds; when it asks for that pair alone, the error
    names that pair and the class is left as it was.  A subtype can
    register a pair afresh, whatever its ancestors registered: the
    registration returns and the subtype resolves the pair to the new
    handler. *)
Theorem C4_duplicate_registration :
  (forall celf cas1 m1 celf1 cas2 m2 clazz attr,
     register_attrs celf cas1 m1 = (Return tt, celf1) ->
     covers cas1 clazz attr ->
     meth_name m2 = "visit" ->
     covers cas2 clazz attr ->
     exists c a celf2,
       register_attrs celf1 cas2 m2
       = (Raise (AssertionError (duplicate_msg c a)), celf2)
       /\ covers cas2 c a /\ registered celf2 c a)
  /\ (forall celf clazz attr m,
        ancestors celf <> [] ->
        registered celf clazz attr -> meth_name m = "visit" ->
        register_attrs celf [(OneClass clazz, AttrTuple [attr])] m
        = (Raise (AssertionError
             ("Oops, class '" +:+ type_name clazz
              +:+ "' has visitor function for '" +:+ selector_str attr
              +:+ "' defined already.")), celf))
  /\ (forall (B : engine_class S) clazz attr m,
        ancestors B <> [] ->
        meth_name m = "visit" ->
        ~ registered B clazz attr ->
        exists B',
          register_attrs B [(OneClass clazz, AttrTuple [attr])] m
          = (Return tt, B')
          /\ ancestors B' = ancestors B
          /\ registered B' clazz attr
          /\ forall thing, type_of thing = clazz ->
                           _visitorsFor B' thing !! attr = Some m)
  /\ (forall (A : engine_class S) clazz attr m,
        meth_name m = "visit" ->
        register_attrs (Subclass None A) [(OneClass clazz, AttrTuple [attr])] m
        = (Return tt, Subclass (Some {[ clazz := {[ attr := m ]} ]}) A))
  /\ (forall cls clazzes m,
        register cls clazzes m
        = register_attrs cls
            [(ClassTuple (as_clazzes clazzes), AttrTuple [None])] m)
  /\ (forall cls clazzes attrs m,
        register_attr cls clazzes attrs m
        = register_attrs cls
            ((fun clazz => (OneClass clazz, AttrTuple (as_attrs attrs)))
               <$> as_clazzes clazzes) m).
Proof.
  unfold register_attrs. split; [|split; [|split; [|split; [|done]]]].
  - intros * Hfirst Hasked1 Hname Hasked2.
    destruct (decorate_Return _ _ _ _ Hfirst) as [Hcelf Hname1].
    pose proof (decorate_run celf cas1 m1 Hcelf Hname1) as (_ & Hres & _).
    rewrite Hfirst in Hres. simpl in Hres. apply Hres in Hasked1.
    assert (ancestors celf1 <> []) as Hcelf1.
    { pose proof (decorate_ancestors celf cas1 m1) as Hanc.
      rewrite Hfirst in Hanc. simpl in Hanc. by rewrite Hanc. }
    pose proof (decorate_run celf1 cas2 m2 Hcelf1 Hname) as (_ & Hres2 & Hraise).
    destruct Hraise as [e He]; [eauto|].
    destruct (decorate celf1 cas2 m2) as [r celf2]. simpl in *. subst r.
    destruct Hres2 as (c & a & -> & ? & ?). eauto 7.
  - intros * Hcelf Hreg Hname. by apply decorate_duplicate.
  - intros * HB Hname Hfresh.
    destruct (decorate_fresh _ _ _ _ HB Hname Hfresh) as (tbl & hs & -> & Hhs & Hm).
    eexists. split; [done|]. split; [done|]. split.
    + exists hs. unfold own_entry. simpl. split; [done|]. by rewrite Hm.
    + intros thing <-. rewrite (visitorsFor_own _ _ hs); [done|].
      unfold own_entry. by simpl.
  - intros * Hname. by apply decorate_fresh_subclass.
Qed.

End Registration.

(** ** Field handlers *)

Section FieldHandlers.

Context {S : Type}.
Implicit Types (cls : engine_class S) (self : hooks S) (obj v : value).
Implicit Types (ex : extra) (key : string) (d : list (string * value)).

Lemma bind_ret_unit (m : M S unit) (st : S) : (m ;; mret tt) st = m st.
Proof. rewrite bind_run. by destruct (m st) as [[[]|e] st']. Qed.

Lemma field_step_field cls self obj ex d key v (st : S) :
  py_dict obj = Some d -> assoc key d = Some v ->
  field_step cls self obj ex key st
  = guarded self (field_handler (_visitorsFor cls obj) key)
      [obj; VStr key; v] ex (visitAttr self obj key v ex) st.
Proof.
  intros Hd Hv. unfold field_step.
  by rewrite (bind_return _ _ _ _ _ (getattr_field _ _ _ _ _ Hd Hv)).
Qed.

(** C8. On a public field of a record-shaped node, object traversal applies
    the handler chosen by [field_handler] for the exact type of the node:
    the one registered under the field name if there is one, else the one
    under the wildcard, else none; without a handler it calls [visitAttr],
    which visits the field value.  An engine that registered a handler for
    the field [x] of [B] only, visiting an instance of [B] with the fields
    [x] and [y], runs the handler step on [x] and then the default
    recursion on [y]. *)
Theorem C8_field_handler_precedence :
  (forall cls self obj ex d key v (st : S),
     py_dict obj = Some d -> assoc key d = Some v ->
     key <> "" -> is_private key = false ->
     visitObject_field self (_visitorsFor cls obj)
       (_visitorsFor cls obj !! Some "*") obj ex key st
     = guarded self (field_handler (_visitorsFor cls obj) key)
         [obj; VStr key; v] ex (visitAttr self obj key v ex) st
     /\ (forall f, _visitorsFor cls obj !! Some key = Some f ->
                   field_handler (_visitorsFor cls obj) key = Some f)
     /\ (_visitorsFor cls obj !! Some key = None ->
         field_handler (_visitorsFor cls obj) key
         = _visitorsFor cls obj !! Some "*")
     /\ (field_handler (_visitorsFor cls obj) key = None ->
         visitObject_field self (_visitorsFor cls obj)
           (_visitorsFor cls obj !! Some "*") obj ex key st
         = visitAttr self obj key v ex st)
     /\ Visitor_visitAttr self obj key v ex st = visit self v ex st)
  /\ (forall (h : method S) (B : string) class_attrs d vx vy self ex (st : S),
        meth_name h = "visit" ->
        d ≡ₚ [("x", vx); ("y", vy)] ->
        (register_attr (Subclass None Visitor) (OneClass (TClass B))
           (AttrStr "x") h).1 = Return tt
        /\ Visitor_visitObject
             (register_attr (Subclass None Visitor) (OneClass (TClass B))
                (AttrStr "x") h).2
             self (VObj B class_attrs d) ex st
           = (guarded self (Some h) [VObj B class_attrs d; VStr "x"; vx] ex
                (visitAttr self (VObj B class_attrs d) "x" vx ex) ;;
              visitAttr self (VObj B class_attrs d) "y" vy ex) st).
Proof.
  split.
  - intros * Hd Hv Hkey Hpub.
    assert (visitObject_field self (_visitorsFor cls obj)
              (_visitorsFor cls obj !! Some "*") obj ex key st
            = guarded self (field_handler (_visitorsFor cls obj) key)
                [obj; VStr key; v] ex (visitAttr self obj key v ex) st) as Hstep.
    { rewrite visitObject_field_public by done. by eapply field_step_field. }
    split; [done|]. unfold field_handler. split; [by intros f ->|].
    split; [by intros ->|]. split; [|done].
    rewrite Hstep. unfold field_handler. by intros ->.
  - intros * Hname Hperm. unfold register_attr. simpl.
    rewrite (decorate_fresh_subclass Visitor (TClass B) (Some "x") h Hname).
    simpl. split; [done|].
    set (obj := VObj B class_attrs d).
    assert (_visitorsFor
              (Subclass (Some {[TClass B := {[Some "x" := h]}]}) Visitor) obj
            = {[Some "x" := h]}) as Hhs.
    { apply visitorsFor_own. unfold own_entry. simpl.
      by rewrite lookup_singleton_eq. }
    assert (assoc "x" d = Some vx /\ assoc "y" d = Some vy) as [Hx Hy].
    { apply Permutation_sym, Permutation_length_2_inv in Hperm.
      by destruct Hperm as [-> | ->]. }
    assert (public_fields d = ["x"; "y"]) as Hfields.
    { rewrite (public_fields_order_independent [("x", vx); ("y", vy)] d)
        by (by rewrite Hperm).
      reflexivity. }
    assert (Forall (fun key => key <> "") d.*1) as Hne.
    { rewrite Hperm. by repeat constructor. }
    rewrite (Visitor_visitObject_fields _ _ obj _ d) by done.
    rewrite Hfields, for_each_cons. apply bind_cong.
    + rewrite (field_step_field _ _ obj _ d "x" vx) by done.
      rewrite Hhs. unfold field_handler. by rewrite lookup_singleton_eq.
    + intros _ st'. rewrite for_each_cons, bind_ret_unit.
      rewrite (field_step_field _ _ obj _ d "y" vy) by done.
      rewrite Hhs. unfold field_handler.
      by rewrite !lookup_singleton_ne.
Qed.

End FieldHandlers.

(** ** Rendering of the otlLib error *)

(** C7. An [OpenTypeLibError] is built from a message and a location that
    may be [None]; it renders as the location, a colon and a space, and the
    message when the location is a non-empty string, and as the message
    alone when the location is [None] or empty. *)
Theorem C7_diagnostic_rendering (message : string) (location : option string) :
  OpenTypeLibError_str (OpenTypeLibError_init message location)
  = match location with
    | None => message
    | Some loc => if decide (loc = "") then message
                  else loc +:+ ": " +:+ message
    end
  /\ OpenTypeLibError_str (OpenTypeLibError_init "bad glyph" (Some "3:4"))
     = "3:4: bad glyph"
  /\ OpenTypeLibError_str (OpenTypeLibError_init "bad glyph" None)
     = "bad glyph".
Proof.
  split; [|done]. by destruct location as [[|c loc]|].
Qed.

(** ** Enough stack

    A visitor that overrides nothing but the leaf hook, on an engine type
    whose handlers do not call back into [self]: once the stack has the
    frames the depth of the node asks for, more frames change nothing. *)

Section Frames.

Context {S : Type}.
Variables (leaf : value -> extra -> M S unit) (cls : engine_class S).
Variable flag : bool.
Hypothesis handlers_closed : handlers_ignore_self cls.

#[local] Abbreviation inst n := (instance (with_leaf_hook leaf cls flag) flag n).

Lemma stops_inst (n m : nat) (ret : value) :
  stops (inst n) ret = stops (inst m) ret.
Proof. unfold stops. by destruct n, m. Qed.

Lemma depth_item (items : list value) (item : value) :
  item ∈ items -> depth item < depth (VList items).
Proof.
  intros Hin. simpl. apply Nat.lt_succ_r, max_list_elem_of_le.
  by apply list_elem_of_fmap_2.
Qed.

Lemma depth_entry (entries : list (value * value)) (v : value) :
  v ∈ entries.*2 -> depth v < depth (VDict entries).
Proof.
  intros (entry & -> & Hin)%list_elem_of_fmap. simpl.
  apply Nat.lt_succ_r, max_list_elem_of_le.
  by apply (list_elem_of_fmap_2 (fun entry => depth entry.2)).
Qed.

Lemma depth_field (c : string) (class_attrs d : list (string * value))
    (key : string) (v : value) :
  assoc key d = Some v -> depth v < depth (VObj c class_attrs d).
Proof.
  intros Hin%assoc_elem_of. simpl.
  apply Nat.lt_succ_r, max_list_elem_of_le.
  by apply (list_elem_of_fmap_2 (fun field => depth field.2) _ (key, v)).
Qed.

Lemma guarded_stable (self self' : hooks S) (handler : option (method S))
    (positional : list value) (ex : extra) (descend descend' : M S unit) st :
  (forall f, handler = Some f ->
     forall args kw st, meth_call f self args kw st = meth_call f self' args kw st) ->
  (forall ret, stops self ret = stops self' ret) ->
  (forall st, descend st = descend' st) ->
  guarded self handler positional ex descend st
  = guarded self' handler positional ex descend' st.
Proof.
  intros Hcall Hstops Hdescend. destruct handler as [f|]; simpl; [|done].
  rewrite !bind_run, (Hcall f eq_refl).
  destruct (meth_call f self' _ _ st) as [[ret|e] st']; [|done].
  rewrite Hstops. by destruct (stops self' ret).
Qed.

Lemma visitObject_field_stable (self self' : hooks S) (hs : handler_set S)
    (dv : option (method S)) (obj : value) (ex : extra)
    (d : list (string * value)) (key : string) st :
  py_dict obj = Some d -> key ∈ d.*1 ->
  (forall f, from_option Some dv (hs !! Some key) = Some f ->
     forall args kw st, meth_call f self args kw st = meth_call f self' args kw st) ->
  (forall ret, stops self ret = stops self' ret) ->
  (forall v st, assoc key d = Some v ->
     visitAttr self obj key v ex st = visitAttr self' obj key v ex st) ->
  visitObject_field self hs dv obj ex key st
  = visitObject_field self' hs dv obj ex key st.
Proof.
  intros Hd [v Hv]%assoc_is_Some Hcall Hstops Hattr.
  unfold visitObject_field. apply bind_ext. intros [|] st1; [done|].
  rewrite !(bind_return _ _ _ _ _ (getattr_field _ _ _ _ _ Hd Hv)).
  destruct (from_option Some dv (hs !! Some key)) as [f|]; simpl.
  - rewrite !bind_run, (Hcall f eq_refl).
    destruct (meth_call f self' _ _ st1) as [[ret|e] st2]; [|done].
    simpl. rewrite Hstops. destruct (stops self' ret); [done|]. by apply Hattr.
  - by apply Hattr.
Qed.

(** With the frames that a depth of [k] asks for, the result of [visit] on
    a node of depth at most [k] does not depend on the frames. *)
Lemma visit_stable (k : nat) :
  forall obj, depth obj <= k ->
  forall n m, 3 * k + 2 <= n -> 3 * k + 2 <= m ->
  forall ex st, visit (inst n) obj ex st = visit (inst m) obj ex st.
Proof.
  induction k as [k IH] using lt_wf_ind.
  intros obj Hk n m Hn Hm ex st.
  destruct n as [|[|n]]; [lia|lia|]. destruct m as [|[|m]]; [lia|lia|].
  change (Visitor_visit cls (inst (Datatypes.S n)) obj ex st
          = Visitor_visit cls (inst (Datatypes.S m)) obj ex st).
  rewrite !Visitor_visit_guarded. apply guarded_stable.
  { intros f Hf *. by eapply handlers_closed. }
  { intros ret. apply stops_inst. }
  clear st. intros st.
  assert (forall v n0 m0,
            depth v < depth obj -> n <= Datatypes.S n0 -> m <= Datatypes.S m0 ->
            forall ex st, visit (inst n0) v ex st = visit (inst m0) v ex st)
    as Hchild.
  { intros v n0 m0 Hv Hn0 Hm0. apply (IH (depth v)); lia. }
  unfold dispatch. destruct obj; simpl; try reflexivity.
  - unfold Visitor_visitList. rewrite !bind_run. simpl.
    apply for_each_ext. intros item st' Hitem.
    apply Hchild; [by apply depth_item|lia|lia].
  - unfold Visitor_visitDict. rewrite !bind_run. simpl.
    apply for_each_ext. intros v st' Hv.
    apply Hchild; [by apply depth_entry|lia|lia].
  - unfold Visitor_visitObject, vars. rewrite !bind_run. simpl.
    apply for_each_ext. intros key st' Hkey.
    apply (proj1 (sorted_elem_of _ _)) in Hkey.
    eapply visitObject_field_stable; [done|done| | |].
    + intros f Hf *. unfold from_option in Hf.
      destruct (_ !! Some key) eqn:Hl; [injection Hf as ->|];
        by eapply handlers_closed.
    + intros ret. apply stops_inst.
    + intros v st'' Hv.
      assert (1 <= depth (VObj cls0 class_attrs inst_dict)) by (simpl; lia).
      destruct n as [|n]; [lia|]. destruct m as [|m]; [lia|].
      apply Hchild; [by eapply depth_field|lia|lia].
Qed.

(** X14. Enough stack gives the result: for a visitor that overrides only
    the leaf hook, on an engine type whose handlers do not call back into
    the visitor, three frames a level of nesting and two more are enough:
    any further frame leaves the outcome and the final state of [visit] as
    they are. *)
Theorem visit_enough_frames (obj : value) (n : nat) (ex : extra) (st : S) :
  frames_needed obj <= n ->
  visit (inst n) obj ex st = visit (inst (frames_needed obj)) obj ex st.
Proof.
  intros Hn. by apply (visit_stable (depth obj)).
Qed.

End Frames.

(** ** Registration: what a table keeps *)

Section Invariants.

Context {St : Type}.

Lemma bind_inv {A B} (P : St -> Prop) (m : M St A) (k : A -> M St B) (st : St) :
  P (m st).2 -> (forall a st', P st' -> P (k a st').2) -> P ((m ≫= k) st).2.
Proof.
  intros Hm Hk. rewrite bind_run. destruct (m st) as [[a|e] st']; simpl in *; auto.
Qed.

Lemma for_each_inv {A} (P : St -> Prop) (xs : list A) (body : A -> M St unit) :
  (forall x st, x ∈ xs -> P st -> P (body x st).2) ->
  forall st, P st -> P (for_each xs body st).2.
Proof.
  induction xs as [|x xs IH]; intros Hbody st Hst; [done|].
  rewrite for_each_cons. apply bind_inv.
  - apply Hbody; [left|done].
  - intros _ st' Hst'. apply IH; [|done].
    intros y st'' Hy. apply Hbody. by right.
Qed.

End Invariants.

Section TableInvariants.

Context {S : Type}.
Implicit Types (tbl : table S) (m : method S) (clazz c : pytype).
Implicit Types (attr a : option string) (celf : engine_class S).

Lemma grows_by_refl m tbl : grows_by m tbl tbl.
Proof. intros c a. by left. Qed.

Lemma grows_by_trans m tbl1 tbl2 tbl3 :
  grows_by m tbl1 tbl2 -> grows_by m tbl2 tbl3 -> grows_by m tbl1 tbl3.
Proof.
  intros H12 H23 c a.
  destruct (H12 c a) as [E12|[N1 M2]], (H23 c a) as [E23|[N2 M3]].
  - left. congruence.
  - right. split; congruence.
  - right. split; congruence.
  - congruence.
Qed.

Lemma in_table_handler_at tbl c a :
  in_table tbl c a <-> is_Some (handler_at tbl c a).
Proof.
  unfold in_table, handler_at. destruct (tbl !! c) as [hs|]; simpl.
  - split; [by intros (? & [= <-] & ?)|eauto].
  - split; [by intros (? & ? & ?)|by intros [? ?]].
Qed.

Lemma handler_at_default tbl c a :
  handler_at tbl c a = default ∅ (tbl !! c) !! a.
Proof. unfold handler_at. by destruct (tbl !! c). Qed.

Lemma setdefault_handler_at clazz tbl c a :
  handler_at (setdefault clazz tbl).2 c a = handler_at tbl c a.
Proof.
  unfold setdefault. destruct (tbl !! clazz) as [hs|] eqn:Hhs; [done|]. simpl.
  unfold handler_at. destruct (decide (clazz = c)) as [->|Hne].
  - by rewrite lookup_insert_eq, Hhs.
  - by rewrite lookup_insert_ne.
Qed.

Lemma register_one_grows clazz m attr tbl :
  grows_by m tbl (register_one clazz m attr tbl).2.
Proof.
  intros c a. unfold register_one.
  destruct (default ∅ (tbl !! clazz) !! attr) as [f|] eqn:Hf; [by left|]. simpl.
  rewrite !handler_at_default.
  destruct (decide (clazz = c)) as [->|Hne]; [|left; by rewrite lookup_insert_ne].
  rewrite lookup_insert_eq. simpl.
  destruct (decide (attr = a)) as [->|Hna].
  - right. by rewrite lookup_insert_eq.
  - left. by rewrite lookup_insert_ne.
Qed.

(** The statements of [wrapper] only add handlers, all of them [m]. *)
Lemma wrapper_grows (clazzes_attrs : list (clazzes_arg * attrs_arg)) m tbl :
  grows_by m tbl (wrapper clazzes_attrs m tbl).2.
Proof.
  unfold wrapper. apply (bind_inv (grows_by m tbl)).
  { unfold py_assert. destruct (bool_decide _); apply grows_by_refl. }
  intros _ tbl0 H0. revert tbl0 H0. apply for_each_inv.
  intros [clazzes attrs] tbl1 _ H1. revert tbl1 H1. apply for_each_inv.
  intros clazz tbl2 _ H2. apply bind_inv.
  - intros c a. rewrite setdefault_handler_at. apply H2.
  - intros _ tbl3 H3. revert tbl3 H3. apply for_each_inv.
    intros attr tbl4 _ H4. eapply grows_by_trans; [done|].
    apply register_one_grows.
Qed.

Lemma own_handler_own_table celf c a :
  own_handler celf c a = handler_at (own_table celf) c a.
Proof.
  unfold own_handler, own_entry, handler_at, own_table.
  destruct celf as [[tbl|] anc]; simpl; [done|]. by rewrite lookup_empty.
Qed.

Lemma decorate_Visitor_like celf
    (clazzes_attrs : list (clazzes_arg * attrs_arg)) m :
  ancestors celf = [] ->
  decorate celf clazzes_attrs m
  = (Raise (AssertionError "Subclass Visitor instead."), celf).
Proof. destruct celf as [own [|c anc]]; [done|discriminate]. Qed.

(** A registration statement, whatever its outcome, only adds handlers to
    the engine type, all of them the decorated function. *)
Lemma decorate_grows celf (clazzes_attrs : list (clazzes_arg * attrs_arg)) m :
  forall c a,
    own_handler (decorate celf clazzes_attrs m).2 c a = own_handler celf c a
    \/ (own_handler celf c a = None
        /\ own_handler (decorate celf clazzes_attrs m).2 c a = Some m).
Proof.
  intros c a. destruct (ancestors celf) as [|b anc] eqn:Hanc.
  - rewrite decorate_Visitor_like by done. by left.
  - rewrite decorate_derived by (by rewrite Hanc).
    rewrite !own_handler_own_table. apply wrapper_grows.
Qed.

(** Nothing can be registered on [Visitor] itself: each of the three
    registration operations raises the assertion error that asks for a
    subclass, before the function is looked at, and leaves [Visitor] as it
    was; [Visitor] resolves every node to the empty handler set. *)
Lemma register_on_Visitor (clazzes : clazzes_arg) (attrs : attrs_arg)
    (clazzes_attrs : list (clazzes_arg * attrs_arg)) m :
  register Visitor clazzes m
  = (Raise (AssertionError "Subclass Visitor instead."), Visitor)
  /\ register_attr Visitor clazzes attrs m
     = (Raise (AssertionError "Subclass Visitor instead."), Visitor)
  /\ register_attrs Visitor clazzes_attrs m
     = (Raise (AssertionError "Subclass Visitor instead."), Visitor)
  /\ forall thing, _visitorsFor (Visitor : engine_class S) thing = ∅.
Proof. done. Qed.


(** X2. Registration never replaces a handler: whatever a registration
    operation is asked for and whatever its outcome, every pair that had a
    handler in the engine type has the same handler afterwards. *)
Theorem registration_keeps_handlers celf c a (f : method S) :
  own_handler celf c a = Some f ->
  (forall clazzes m,
     own_handler (register celf clazzes m).2 c a = Some f)
  /\ (forall clazzes attrs m,
        own_handler (register_attr celf clazzes attrs m).2 c a = Some f)
  /\ (forall clazzes_attrs m,
        own_handler (register_attrs celf clazzes_attrs m).2 c a = Some f).
Proof.
  intros Hf.
  assert (forall clazzes_attrs m,
            own_handler (decorate celf clazzes_attrs m).2 c a = Some f) as Hkeep.
  { intros cas m. destruct (decorate_grows celf cas m c a) as [->|[Hnone _]];
      congruence. }
  repeat split; intros; apply Hkeep.
Qed.

Lemma covers_register (clazzes : clazzes_arg) c :
  c ∈ as_clazzes clazzes ->
  covers [(ClassTuple (as_clazzes clazzes), AttrTuple [None])] c None.
Proof.
  intros Hc. exists (ClassTuple (as_clazzes clazzes)), (AttrTuple [None]).
  split; [left|]. split; [done|left].
Qed.

Lemma covers_register_attr (clazzes : clazzes_arg) (attrs : attrs_arg) c a :
  c ∈ as_clazzes clazzes -> a ∈ as_attrs attrs ->
  covers ((fun clazz => (OneClass clazz, AttrTuple (as_attrs attrs)))
            <$> as_clazzes clazzes) c a.
Proof.
  intros Hc Ha. exists (OneClass c), (AttrTuple (as_attrs attrs)).
  split; [|split; [left|done]].
  by apply (list_elem_of_fmap_2
              (fun clazz => (OneClass clazz, AttrTuple (as_attrs attrs)))).
Qed.

(** After a registration statement that returned, every pair it asked for
    has the decorated function as its handler in the engine type. *)
Lemma decorate_registers celf (clazzes_attrs : list (clazzes_arg * attrs_arg))
    m celf' c a :
  decorate celf clazzes_attrs m = (Return tt, celf') ->
  covers clazzes_attrs c a ->
  own_handler celf' c a = Some m.
Proof.
  intros Hrun Hasked.
  destruct (decorate_Return _ _ _ _ Hrun) as [Hcelf Hname].
  pose proof (decorate_run celf clazzes_attrs m Hcelf Hname) as (_ & Hres & Hraise).
  pose proof (decorate_grows celf clazzes_attrs m c a) as Hgrow.
  rewrite Hrun in Hres, Hraise, Hgrow. simpl in *.
  destruct Hgrow as [Hsame|[_ Hm]]; [|done].
  assert (registered celf' c a) as (hs & Hhs & [f Hf]) by auto.
  assert (own_handler celf c a = Some f) as Hold.
  { rewrite <- Hsame. unfold own_handler. by rewrite Hhs. }
  destruct Hraise as [e [=]]. exists c, a. split; [done|].
  unfold own_handler in Hold.
  destruct (own_entry celf c) as [hs0|] eqn:Hhs0; [|done].
  exists hs0. split; [done|]. simpl in Hold. by rewrite Hold.
Qed.

Lemma visitorsFor_own_handler celf (thing : value) a m :
  own_handler celf (type_of thing) a = Some m ->
  _visitorsFor celf thing !! a = Some m.
Proof.
  unfold own_handler.
  destruct (own_entry celf (type_of thing)) as [hs|] eqn:Hhs; [|done].
  simpl. intros Hm. by rewrite (visitorsFor_own _ _ hs).
Qed.

(** X3. Register, then look up: after a registration that returned, each
    pair it asked for resolves, through the engine type it was made in, to
    the decorated function: every class given to [register] under the
    whole-node selector, every class with every selector given to
    [register_attr], every pair of the lists given to [register_attrs]. *)
Theorem register_then_resolve celf celf' m :
  (forall clazzes thing,
     register celf clazzes m = (Return tt, celf') ->
     type_of thing ∈ as_clazzes clazzes ->
     _visitorsFor celf' thing !! None = Some m)
  /\ (forall clazzes attrs thing a,
        register_attr celf clazzes attrs m = (Return tt, celf') ->
        type_of thing ∈ as_clazzes clazzes -> a ∈ as_attrs attrs ->
        _visitorsFor celf' thing !! a = Some m)
  /\ (forall clazzes_attrs thing a,
        register_attrs celf clazzes_attrs m = (Return tt, celf') ->
        covers clazzes_attrs (type_of thing) a ->
        _visitorsFor celf' thing !! a = Some m).
Proof.
  split; [|split].
  - intros * Hrun Hc. apply visitorsFor_own_handler.
    eapply decorate_registers; [exact Hrun|]. by apply covers_register.
  - intros * Hrun Hc Ha. apply visitorsFor_own_handler.
    eapply decorate_registers; [exact Hrun|]. by apply covers_register_attr.
  - intros * Hrun Hasked. apply visitorsFor_own_handler.
    by eapply decorate_registers.
Qed.

Lemma for_each_singleton_state {A} (x : A) (body : A -> M (table S) unit) tbl :
  (for_each [x] body tbl).2 = (body x tbl).2.
Proof.
  rewrite for_each_cons, bind_run. by destruct (body x tbl) as [[[]|e] tbl'].
Qed.

(** The table a one-class request leaves: the handler set of the class is
    entered, then the selectors are registered one by one. *)
Lemma wrapper_one_class_state clazz (attrs : list (option string)) m tbl :
  meth_name m = "visit" ->
  (wrapper [(OneClass clazz, AttrTuple attrs)] m tbl).2
  = (for_each attrs (register_one clazz m) (setdefault clazz tbl).2).2.
Proof.
  intros Hname. unfold wrapper. rewrite bind_run, Hname. simpl.
  rewrite !bind_run. unfold setdefault.
  by destruct (tbl !! clazz); simpl;
    destruct (for_each attrs (register_one clazz m) _) as [[[]|e] tbl'].
Qed.

(** X4. Registration is not undone when it fails: if the first selector of
    a request is new for the class and a later one is already registered,
    the request raises, and the first selector stays registered with the
    decorated function. *)
Theorem registration_not_atomic celf clazz a1 (rest : list (option string)) m :
  ancestors celf <> [] ->
  meth_name m = "visit" ->
  own_handler celf clazz a1 = None ->
  (exists a2, a2 ∈ rest /\ registered celf clazz a2) ->
  exists e celf',
    register_attr celf (OneClass clazz) (AttrTuple (a1 :: rest)) m
    = (Raise e, celf')
    /\ own_handler celf' clazz a1 = Some m.
Proof.
  intros Hcelf Hname Hfresh (a2 & Ha2 & Hreg).
  change (register_attr celf (OneClass clazz) (AttrTuple (a1 :: rest)) m)
    with (decorate celf [(OneClass clazz, AttrTuple (a1 :: rest))] m).
  pose proof (decorate_run celf [(OneClass clazz, AttrTuple (a1 :: rest))] m
                Hcelf Hname) as (_ & _ & Hraise).
  destruct Hraise as [e He].
  { exists clazz, a2. split; [|done].
    exists (OneClass clazz), (AttrTuple (a1 :: rest)).
    split; [left|]. split; [left|by right]. }
  destruct (decorate celf [(OneClass clazz, AttrTuple (a1 :: rest))] m)
    as [r celf'] eqn:Hrun. simpl in He. subst r.
  exists e, celf'. split; [done|].
  rewrite decorate_derived in Hrun by done. injection Hrun as _ <-.
  rewrite own_handler_own_table. unfold own_table at 1. simpl.
  rewrite wrapper_one_class_state by done.
  rewrite own_handler_own_table in Hfresh.
  assert (~ in_table (setdefault clazz (own_table celf)).2 clazz a1) as Hfresh'.
  { rewrite in_table_handler_at, setdefault_handler_at, Hfresh.
    by intros [? ?]. }
  rewrite for_each_cons, bind_run.
  destruct (register_one_fresh _ m _ _ Hfresh') as (tbl1 & -> & (hs & Hhs & Hm) & _).
  apply (for_each_inv (fun tbl => handler_at tbl clazz a1 = Some m)).
  - intros a tbl _ Htbl.
    destruct (register_one_grows clazz m a tbl clazz a1) as [->|[? _]];
      congruence.
  - unfold handler_at. by rewrite Hhs.
Qed.

(** The table after a one-class request on a type that has no entry for
    the class. *)
Lemma decorate_new_entry celf clazz (attrs : list (option string)) m :
  meth_name m = "visit" ->
  own_entry celf clazz = None ->
  (wrapper [(OneClass clazz, AttrTuple attrs)] m (own_table celf)).2
  = (for_each attrs (register_one clazz m)
       (<[clazz := ∅]> (own_table celf))).2.
Proof.
  intros Hname Hnone.
  rewrite wrapper_one_class_state by done. unfold setdefault.
  assert (own_table celf !! clazz = None) as ->; [|done].
  unfold own_entry, own_table in *. destruct celf as [[tbl|] anc]; simpl in *;
    [done|apply lookup_empty].
Qed.

(** X5. An entry of a subclass hides the handlers of its ancestors for the
    same node type, all of them: once an engine type that had no entry for
    the exact type [T] registers one pair [(T, a)], it resolves instances
    of [T] to the one handler it registered, whatever handlers its
    ancestors hold for [T]; when [a] is a field selector, no whole-node
    handler is invoked for [T] through it any more. *)
Theorem subclass_entry_shadows (B : engine_class S) (T : pytype) a m
    (thing : value) :
  ancestors B <> [] ->
  meth_name m = "visit" ->
  own_entry B T = None ->
  type_of thing = T ->
  exists B',
    register_attrs B [(OneClass T, AttrTuple [a])] m = (Return tt, B')
    /\ ancestors B' = ancestors B
    /\ _visitorsFor B' thing = {[ a := m ]}
    /\ (a <> None ->
        forall self ex st,
          Visitor_visit B' self thing ex st = dispatch self thing ex st).
Proof.
  intros HB Hname Hnone <-. unfold register_attrs.
  assert (~ registered B (type_of thing) a) as Hfresh
    by (intros (hs & Hhs & _); congruence).
  destruct (decorate_fresh B (type_of thing) a m HB Hname Hfresh)
    as (tbl & hs & Hrun & Htbl & _).
  eexists. split; [exact Hrun|]. split; [done|].
  assert (tbl !! type_of thing = Some {[ a := m ]}) as Hentry.
  { rewrite decorate_derived in Hrun by done. injection Hrun as _ <-.
    rewrite (decorate_new_entry B (type_of thing) [a] m Hname Hnone).
    rewrite for_each_singleton_state. unfold register_one.
    rewrite lookup_insert_eq. simpl. rewrite lookup_empty. simpl.
    by rewrite lookup_insert_eq, insert_empty. }
  assert (_visitorsFor (Class (Some tbl) (ancestors B)) thing = {[ a := m ]})
    as Hres by (by apply visitorsFor_own).
  split; [done|]. intros Ha self ex st.
  by rewrite Visitor_visit_guarded, Hres, lookup_singleton_ne.
Qed.

(** X6. A registration with an empty tuple of selectors is not a no-op:
    the class is entered in the table with an empty handler set, which
    hides the handlers of the ancestors just the same: instances of the
    type resolve to the empty handler set and get the default traversal
    only. *)
Theorem empty_registration_shadows (B : engine_class S) (T : pytype) m
    (thing : value) :
  ancestors B <> [] ->
  meth_name m = "visit" ->
  own_entry B T = None ->
  type_of thing = T ->
  exists B',
    register_attr B (OneClass T) (AttrTuple []) m = (Return tt, B')
    /\ ancestors B' = ancestors B
    /\ own_entry B' T = Some ∅
    /\ _visitorsFor B' thing = ∅
    /\ forall self ex st,
         Visitor_visit B' self thing ex st = dispatch self thing ex st.
Proof.
  intros HB Hname Hnone <-.
  change (register_attr B (OneClass (type_of thing)) (AttrTuple []) m)
    with (decorate B [(OneClass (type_of thing), AttrTuple [])] m).
  rewrite decorate_derived by done.
  pose proof (decorate_new_entry B (type_of thing) [] m Hname Hnone)
    as Hstate.
  assert ((wrapper [(OneClass (type_of thing), AttrTuple [])] m (own_table B)).1
          = Return tt) as ->.
  { unfold wrapper. rewrite bind_run, Hname. simpl. rewrite !bind_run.
    unfold setdefault. by destruct (own_table B !! type_of thing). }
  rewrite Hstate. simpl.
  assert (own_entry (Class (Some (<[type_of thing := ∅]> (own_table B)))
                       (ancestors B)) (type_of thing) = Some ∅) as Hentry.
  { unfold own_entry. simpl. by rewrite lookup_insert_eq. }
  eexists. split; [done|]. split; [done|]. split; [done|].
  assert (_visitorsFor (Class (Some (<[type_of thing := ∅]> (own_table B)))
                          (ancestors B)) thing = ∅) as Hres
    by (by apply visitorsFor_own).
  split; [done|]. intros self ex st.
  by rewrite Visitor_visit_guarded, Hres, lookup_empty.
Qed.

Lemma wrapper_other_class (clazzes_attrs : list (clazzes_arg * attrs_arg)) m
    tbl typ :
  ~ names_class clazzes_attrs typ ->
  (wrapper clazzes_attrs m tbl).2 !! typ = tbl !! typ.
Proof.
  intros Hother. unfold wrapper.
  set (P := fun st : table S => st !! typ = tbl !! typ).
  apply (bind_inv P).
  { unfold py_assert. by destruct (bool_decide _). }
  intros _ tbl0 H0. apply (for_each_inv P); [|done].
  intros [clazzes attrs] tbl1 Hin H1. apply (for_each_inv P); [|done].
  intros clazz tbl2 Hclazz H2.
  assert (clazz <> typ) as Hne.
  { intros ->. apply Hother. by exists clazzes, attrs. }
  apply (bind_inv P).
  - unfold P, setdefault. destruct (tbl2 !! clazz); [done|]. simpl.
    by rewrite lookup_insert_ne.
  - intros _ tbl3 H3. apply (for_each_inv P); [|done].
    intros attr tbl4 _ H4. unfold P, register_one.
    destruct (default ∅ (tbl4 !! clazz) !! attr); [done|]. simpl.
    by rewrite lookup_insert_ne.
Qed.

(** X7. Under single inheritance a registration statement, whatever its
    outcome, changes nothing for the node types it does not name: a node
    of such a type resolves to the same handler set as before. *)
Theorem registration_leaves_other_types celf
    (clazzes_attrs : list (clazzes_arg * attrs_arg)) m (thing : value) :
  single_inheritance celf ->
  ~ names_class clazzes_attrs (type_of thing) ->
  _visitorsFor (register_attrs celf clazzes_attrs m).2 thing
  = _visitorsFor celf thing.
Proof.
  intros Hsingle Hother. unfold register_attrs.
  destruct Hsingle as [|own base Hbase]; [done|].
  rewrite decorate_Subclass. simpl.
  rewrite !visitorsFor_resolve by (by constructor).
  rewrite !resolve_Subclass, !own_entry_Subclass. simpl.
  rewrite wrapper_other_class by done.
  destruct own as [tbl|]; simpl; [done|]. by rewrite lookup_empty.
Qed.

End TableInvariants.

(** ** More of the stop/continue protocol *)

Section Outcomes.

Context {S : Type}.
Implicit Types (cls : engine_class S) (self : hooks S) (obj v : value).
Implicit Types (ex : extra) (key : string) (d : list (string * value)).
Implicit Types (st : S) (f : method S).


(** X9. Nothing is caught on the way: an exception raised by the
    whole-node handler of a node leaves [visit] with the state the handler
    left; one raised by the handler of a field leaves object traversal, the
    fields after it are not looked at; and when visiting an element of a
    list raises, the elements after it are not visited. *)
Theorem handler_exception_propagates :
  (forall cls self obj ex f e st st',
     _visitorsFor cls obj !! None = Some f ->
     meth_call f self (obj :: args ex) (kwargs ex) st = (Raise e, st') ->
     Visitor_visit cls self obj ex st = (Raise e, st'))
  /\ (forall cls self obj ex d before key after v f e st0 st st',
        py_dict obj = Some d ->
        sorted d.*1 = before ++ key :: after ->
        visitObject_from cls self obj ex before st0 = (Return tt, st) ->
        key <> "" -> is_private key = false ->
        assoc key d = Some v ->
        field_handler (_visitorsFor cls obj) key = Some f ->
        meth_call f self (obj :: VStr key :: v :: args ex) (kwargs ex) st
          = (Raise e, st') ->
        Visitor_visitObject cls self obj ex st0 = (Raise e, st'))
  /\ (forall self (before after : list value) item ex e st0 st st',
        for_each before (fun value => visit self value ex) st0
          = (Return tt, st) ->
        visit self item ex st = (Raise e, st') ->
        Visitor_visitList self (VList (before ++ item :: after)) ex st0
        = (Raise e, st')).
Proof.
  split; [|split].
  - intros * Hf Hcall. rewrite Visitor_visit_guarded, Hf. unfold guarded.
    simpl. by rewrite bind_run, Hcall.
  - intros * Hd Hkeys Hbefore Hkey Hpub Hv Hf Hcall.
    unfold Visitor_visitObject, vars. rewrite Hd, bind_run. simpl.
    rewrite Hkeys. unfold visitObject_from in *.
    rewrite for_each_app, (bind_return _ _ _ _ _ Hbefore).
    rewrite for_each_cons, !bind_run.
    rewrite visitObject_field_public by done.
    unfold field_step.
    rewrite (bind_return _ _ _ _ _ (getattr_field _ _ _ _ _ Hd Hv)).
    rewrite Hf. unfold guarded. simpl. by rewrite bind_run, Hcall.
  - intros * Hbefore Hitem. unfold Visitor_visitList. rewrite bind_run. simpl.
    rewrite for_each_app, (bind_return _ _ _ _ _ Hbefore).
    by rewrite for_each_cons, bind_run, Hitem.
Qed.

(** X10. Handlers registered under a private field name are never run by
    object traversal: two engine types whose handler sets for a node agree
    on every selector but the private field names traverse the node alike. *)
Theorem private_handlers_never_run cls cls' self obj ex st :
  (forall selector,
     (forall key, selector = Some key -> is_private key = false) ->
     _visitorsFor cls obj !! selector = _visitorsFor cls' obj !! selector) ->
  Visitor_visitObject cls self obj ex st
  = Visitor_visitObject cls' self obj ex st.
Proof.
  intros Hagree. unfold Visitor_visitObject. apply bind_ext. intros d st'.
  rewrite (Hagree (Some "*")) by (by intros key [= <-]).
  revert st'. apply for_each_ext. intros key st' _.
  destruct (is_private key) eqn:Hp.
  { by rewrite !visitObject_field_private. }
  unfold visitObject_field.
  by rewrite (Hagree (Some key)) by (by intros ? [= <-]).
Qed.

End Outcomes.

(** ** A traversal without handlers

    What a visitor that overrides nothing but the leaf hook does on an
    engine type that resolves no handler: it calls the hook on the leaves
    of the node, in order. *)

Section Leaves.

Context {S : Type}.
Variables (leaf : value -> extra -> M S unit) (cls : engine_class S).
Variable flag : bool.
Hypothesis no_handlers : unregistered cls.

#[local] Abbreviation bare n := (instance (with_leaf_hook leaf cls flag) flag n).

Lemma for_each_singleton {St A} (x : A) (body : A -> M St unit) (st : St) :
  for_each [x] body st = body x st.
Proof.
  rewrite for_each_cons, bind_run. by destruct (body x st) as [[[]|e] st'].
Qed.

Lemma for_each_fmap {St A B} (g : A -> B) (xs : list A)
    (body : B -> M St unit) (st : St) :
  for_each (g <$> xs) body st = for_each xs (fun x => body (g x)) st.
Proof.
  revert st. induction xs as [|x xs IH]; intros st; [done|].
  rewrite fmap_cons, !for_each_cons. by apply bind_ext.
Qed.

Lemma for_each_concat {St A B} (g : A -> list B) (xs : list A)
    (body : B -> M St unit) (st : St) :
  for_each (concat (g <$> xs)) body st
  = for_each xs (fun x => for_each (g x) body) st.
Proof.
  revert st. induction xs as [|x xs IH]; intros st; [done|].
  rewrite fmap_cons. simpl concat. rewrite for_each_app, for_each_cons.
  by apply bind_ext.
Qed.

Lemma assoc_fmap {A B} (g : A -> B) key (l : list (string * A)) :
  assoc key ((fun entry => (entry.1, g entry.2)) <$> l) = g <$> assoc key l.
Proof.
  induction l as [|[k a] l IH]; simpl; [done|]. by case_decide.
Qed.

Lemma well_named_fields (c : string) (class_attrs d : list (string * value)) :
  well_named (VObj c class_attrs d) = true ->
  Forall (fun key => key <> "") d.*1
  /\ forall key v, (key, v) ∈ d -> well_named v = true.
Proof.
  simpl. rewrite forallb_forall. intros Hall. split.
  - apply Forall_fmap, Forall_forall. intros [key v] Hin%list_elem_of_In.
    apply Hall, andb_prop in Hin as [Hkey _]. simpl in *.
    intros ->. done.
  - intros key v Hin%list_elem_of_In.
    by apply Hall, andb_prop in Hin as [_ Hv].
Qed.

Lemma lookup_empty_field (obj : value) (key : string) :
  match _visitorsFor cls obj !! Some key with
  | Some f => Some f
  | None => _visitorsFor cls obj !! Some "*"
  end = None.
Proof. rewrite (no_handlers obj), lookup_empty. apply lookup_empty. Qed.

(** With the frames a depth of [k] asks for, [visit] on a well-named node
    of depth at most [k] runs the leaf hook over its leaves. *)
Lemma visit_leaves (k : nat) :
  forall obj, depth obj <= k -> well_named obj = true ->
  forall n, 3 * k + 2 <= n ->
  forall ex st,
    visit (bare n) obj ex st = for_each (leaves obj) (fun l => leaf l ex) st.
Proof.
  induction k as [k IH] using lt_wf_ind.
  intros obj Hk Hwn n Hn ex st.
  destruct n as [|[|n]]; [lia|lia|].
  change (Visitor_visit cls (bare (Datatypes.S n)) obj ex st
          = for_each (leaves obj) (fun l => leaf l ex) st).
  rewrite Visitor_visit_guarded, no_handlers, lookup_empty. unfold guarded.
  assert (forall v n0,
            depth v < depth obj -> well_named v = true ->
            n <= Datatypes.S n0 ->
            forall ex st, visit (bare n0) v ex st
                          = for_each (leaves v) (fun l => leaf l ex) st)
    as Hchild.
  { intros v n0 Hv Hwv Hn0. apply (IH (depth v)); [lia|lia|done|lia]. }
  unfold dispatch.
  destruct obj as [| | | | |tuple_items|items|entries|cls0 members
                   |cls0 class_attrs inst_dict];
    simpl;
    try (symmetry; apply (for_each_singleton _ (fun l => leaf l ex))).
  - unfold Visitor_visitList. rewrite bind_run. simpl.
    rewrite for_each_concat. revert st. apply for_each_ext.
    intros item st Hitem. apply Hchild; [by apply depth_item| |lia].
    simpl in Hwn. rewrite forallb_forall in Hwn.
    by apply Hwn, list_elem_of_In.
  - unfold Visitor_visitDict. rewrite bind_run. simpl.
    rewrite for_each_concat, for_each_fmap. revert st. apply for_each_ext.
    intros entry st Hentry. apply Hchild; [| |lia].
    + apply depth_entry. by apply list_elem_of_fmap_2.
    + simpl in Hwn. rewrite forallb_forall in Hwn.
      by apply Hwn, list_elem_of_In.
  - destruct (well_named_fields _ _ _ Hwn) as [Hkeys Hvals].
    rewrite (Visitor_visitObject_fields cls _ _ ex inst_dict) by done.
    rewrite for_each_concat. revert st. apply for_each_ext.
    intros key st Hkey.
    apply list_elem_of_filter in Hkey as [_ Hkey].
    apply (proj1 (sorted_elem_of _ _)) in Hkey.
    destruct (assoc_is_Some _ _ Hkey) as [v Hv].
    unfold field_step.
    rewrite (bind_return _ _ _ _ _
               (getattr_field (VObj cls0 class_attrs inst_dict) _ _ _ _
                  eq_refl Hv)).
    unfold field_handler. rewrite lookup_empty_field. unfold guarded.
    rewrite assoc_fmap, Hv. simpl default.
    assert (1 <= depth (VObj cls0 class_attrs inst_dict)) by (simpl; lia).
    destruct n as [|n]; [lia|].
    change (visit (bare n) v ex st
            = for_each (leaves v) (fun l => leaf l ex) st).
    apply Hchild; [by eapply depth_field| |lia].
    eapply Hvals. by apply assoc_elem_of.
Qed.

(** X11. A traversal without handlers is a fold over the leaves: on an
    engine type that resolves no handler, a visitor that overrides only
    the leaf hook, given the stack the node asks for, calls the hook on
    the leaves of the node and on nothing else, in traversal order
    (list elements and dict values in order, public fields in sorted
    order), each time with the extra arguments [visit] was given; it
    stops at the first leaf on which the hook raises. *)
Theorem unregistered_visit_leaves (obj : value) (n : nat) (ex : extra)
    (st : S) :
  well_named obj = true ->
  frames_needed obj <= n ->
  visit (bare n) obj ex st = for_each (leaves obj) (fun l => leaf l ex) st.
Proof.
  intros Hwn Hn. by apply (visit_leaves (depth obj)).
Qed.

End Leaves.

Section PlainVisitor.

Context {S : Type}.

Lemma for_each_skip {A} (xs : list A) (st : S) :
  for_each xs (fun _ => mret tt) st = (Return tt, st).
Proof. by induction xs. Qed.

(** X12. A visitor that registers nothing and overrides nothing does
    nothing: with the stack the node asks for, [visit] returns normally on
    every well-named node and leaves the state as it was, with either
    value of [defaultStop]. *)
Theorem plain_visitor_no_effect (cls : engine_class S) (flag : bool)
    (obj : value) (n : nat) (ex : extra) (st : S) :
  unregistered cls ->
  well_named obj = true ->
  frames_needed obj <= n ->
  visit (instance (Visitor_methods cls flag) flag n) obj ex st
  = (Return tt, st).
Proof.
  intros Hun Hwn Hn.
  change (instance (Visitor_methods cls flag) flag n)
    with (instance (with_leaf_hook (fun _ _ => mret tt) cls flag) flag n).
  rewrite (visit_leaves _ cls flag Hun (depth obj)) by done.
  apply for_each_skip.
Qed.

End PlainVisitor.

(** ** Runs of the sample engines *)

(** A list of two mappings with scalar values: two leaves, in list order. *)
Example run_list_of_mappings :
  visit (logger Plain false)
    (VList [VDict [(VStr "a", VInt 1)]; VDict [(VStr "b", VInt 2)]]) no_extra []
  = (Return tt, [("leaf", VInt 1); ("leaf", VInt 2)]).
Proof. vm_compute. reflexivity. Qed.

(** A whole-node handler that stops: the children of the [A] instance are
    not visited, through the registering class and through a subclass. *)
Example run_stop_at_A :
  visit (logger StopA false) (VList [node_A; VInt 7]) no_extra []
  = (Return tt, [("A", node_A); ("leaf", VInt 7)])
  /\ visit (logger Derived false) (VList [node_A; VInt 7]) no_extra []
     = (Return tt, [("A", node_A); ("leaf", VInt 7)])
  /\ visit (logger Plain false) (VList [node_A; VInt 7]) no_extra []
     = (Return tt, [("leaf", VInt 1); ("leaf", VInt 2); ("leaf", VInt 7)]).
Proof. repeat split; vm_compute; reflexivity. Qed.

(** A handler for the field [x] of [B] only: fields in sorted order, the
    private field passed over, [x] recursed into or not by the protocol. *)
Example run_field_handler :
  visit (logger (OnlyX VNone) false) node_B no_extra []
  = (Return tt, [("B.x", node_B); ("leaf", VInt 10); ("leaf", VInt 20)])
  /\ visit (logger (OnlyX VNone) true) node_B no_extra []
     = (Return tt, [("B.x", node_B); ("leaf", VInt 20)])
  /\ visit (logger (OnlyX (VBool true)) true) node_B no_extra []
     = (Return tt, [("B.x", node_B); ("leaf", VInt 10); ("leaf", VInt 20)])
  /\ visit (logger (OnlyX (VInt 0)) false) node_B no_extra []
     = (Return tt, [("B.x", node_B); ("leaf", VInt 20)]).
Proof. repeat split; vm_compute; reflexivity. Qed.

(** An enum member is a leaf, a tuple too; a field without a name makes
    object traversal raise; a stack that is too short raises. *)
Example run_corner_cases :
  visit (logger Plain false) (VEnum "Color" [("value", VInt 1)]) no_extra []
  = (Return tt, [("leaf", VEnum "Color" [("value", VInt 1)])])
  /\ visit (logger Plain false) (VTuple [VInt 1; VInt 2]) no_extra []
     = (Return tt, [("leaf", VTuple [VInt 1; VInt 2])])
  /\ visit (logger Plain false) (VObj "C" [] [("a", VInt 1); ("", VInt 2)])
       no_extra []
     = (Raise IndexError, [])
  /\ visit (instance (LeafLogger Plain false) false 3) node_B no_extra []
     = (Raise RecursionError, []).
Proof. repeat split; vm_compute; reflexivity. Qed.

(** ** The theorems at the sample engines *)

Lemma C1_explicit_stop_witness :
  Visitor_visit StopA (logger StopA false) node_A no_extra []
  = (Return tt, [("A", node_A)])
  /\ Visitor_visitObject (OnlyX (VBool false))
       (logger (OnlyX (VBool false)) false) node_B no_extra []
     = visitObject_from (OnlyX (VBool false))
         (logger (OnlyX (VBool false)) false) node_B no_extra ["y"]
         [("B.x", node_B)].
Proof.
  split.
  - refine (proj1 C1_explicit_stop StopA (logger StopA false) node_A no_extra
              (recording "A" (VBool false)) [] [("A", node_A)] _ _);
      vm_compute; reflexivity.
  - refine (proj2 C1_explicit_stop (OnlyX (VBool false))
              (logger (OnlyX (VBool false)) false) node_B no_extra
              dict_B ["_cache"] "x" ["y"] (VInt 10)
              (recording "B.x" (VBool false)) [] [] [("B.x", node_B)]
              _ _ _ _ _ _ _ _);
      try (vm_compute; reflexivity).
    discriminate.
Defined.

Lemma C2_no_signal_witness :
  Visitor_visit Derived (logger Derived true) node_U no_extra []
  = (if defaultStop (logger Derived true) then (Return tt, [("U", node_U)])
     else dispatch (logger Derived true) node_U no_extra [("U", node_U)])
  /\ Visitor_visitObject (OnlyX VNone) (logger (OnlyX VNone) false)
       node_B no_extra []
     = if defaultStop (logger (OnlyX VNone) false)
       then visitObject_from (OnlyX VNone) (logger (OnlyX VNone) false)
              node_B no_extra ["y"] [("B.x", node_B)]
       else (visitAttr (logger (OnlyX VNone) false) node_B "x" (VInt 10) no_extra ;;
             visitObject_from (OnlyX VNone) (logger (OnlyX VNone) false)
               node_B no_extra ["y"]) [("B.x", node_B)].
Proof.
  split.
  - refine (proj1 C2_no_signal Derived (logger Derived true) node_U no_extra
              (recording "U" VNone) [] [("U", node_U)] _ _);
      vm_compute; reflexivity.
  - refine (proj2 C2_no_signal (OnlyX VNone) (logger (OnlyX VNone) false)
              node_B no_extra dict_B ["_cache"] "x" ["y"] (VInt 10)
              (recording "B.x" VNone) [] [] [("B.x", node_B)]
              _ _ _ _ _ _ _ _);
      try (vm_compute; reflexivity).
    discriminate.
Defined.

Lemma C9_equal_to_False_witness :
  Visitor_visit (Subclass (Some {[ TClass "U" := {[ None := recording "U" (VInt 0) ]} ]}) Visitor)
    (logger Plain false) node_U no_extra []
  = (Return tt, [("U", node_U)])
  /\ Visitor_visitObject (OnlyX (VFloat (S754_zero true)))
       (logger (OnlyX (VFloat (S754_zero true))) false) node_B no_extra []
     = visitObject_from (OnlyX (VFloat (S754_zero true)))
         (logger (OnlyX (VFloat (S754_zero true))) false) node_B no_extra ["y"]
         [("B.x", node_B)].
Proof.
  split.
  - refine (proj1 (C9_equal_to_False (VInt 0) eq_refl)
              (Subclass (Some {[ TClass "U" := {[ None := recording "U" (VInt 0) ]} ]}) Visitor)
              (logger Plain false) node_U no_extra
              (recording "U" (VInt 0)) [] [("U", node_U)] _ _);
      vm_compute; reflexivity.
  - refine (proj1 (proj2 (C9_equal_to_False (VFloat (S754_zero true)) eq_refl))
              (OnlyX (VFloat (S754_zero true)))
              (logger (OnlyX (VFloat (S754_zero true))) false) node_B no_extra
              dict_B ["_cache"] "x" ["y"] (VInt 10)
              (recording "B.x" (VFloat (S754_zero true)))
              [] [] [("B.x", node_B)] _ _ _ _ _ _ _ _);
      try (vm_compute; reflexivity).
    discriminate.
Defined.

Lemma C3_inherited_resolution_witness :
  _visitorsFor Derived node_A = {[ None := recording "A" (VBool false) ]}
  /\ (forall (self : hooks log) ex st,
        Visitor_visit Derived self node_A ex st
        = guarded self
            (({[ None := recording "A" (VBool false) ]} : handler_set log) !! None)
            [node_A] ex (dispatch self node_A ex) st)
  /\ (forall cls : engine_class log,
        single_inheritance cls ->
        _visitorsFor cls node_A = resolve cls (TClass "A"))
  /\ (forall cls : engine_class log,
        single_inheritance cls ->
        (forall c, c ∈ mro cls -> own_entry c (TClass "A") = None) ->
        _visitorsFor cls node_A = ∅
        /\ forall self ex st,
             Visitor_visit cls self node_A ex st = dispatch self node_A ex st).
Proof.
  apply (C3_inherited_resolution StopA Derived [Derived] (TClass "A")
           {[ None := recording "A" (VBool false) ]} node_A);
    try reflexivity.
  - repeat constructor.
  - intros c Hc. apply list_elem_of_singleton in Hc. rewrite Hc. reflexivity.
Defined.

(** C3 as stated fails under multiple inheritance.  [Diamond] derives from
    [StopA], which has an entry for [A]; neither [Diamond] nor [Plain], the
    classes before [StopA] on its MRO, has one; yet an [A] instance
    resolves to the empty handler set through [Diamond], and the handler
    of [StopA] is not invoked: the loop leaves at [Plain], which has no
    [_visitors] attribute. *)
Lemma C3_counterexample :
  mro Diamond = [Diamond; Plain] ++ mro StopA
  /\ own_entry StopA (TClass "A") = Some {[ None := recording "A" (VBool false) ]}
  /\ (forall c, c ∈ [Diamond; Plain] -> own_entry c (TClass "A") = None)
  /\ type_of node_A = TClass "A"
  /\ _visitorsFor Diamond node_A <> {[ None := recording "A" (VBool false) ]}
  /\ _visitorsFor Diamond node_A = ∅
  /\ visit (logger Diamond false) node_A no_extra []
     = (Return tt, [("leaf", VInt 1); ("leaf", VInt 2)]).
Proof.
  assert (_visitorsFor Diamond node_A = ∅) as Hempty by reflexivity.
  split; [reflexivity|]. split; [reflexivity|]. split; [|split; [reflexivity|]].
  { intros c [->|[->|[]%elem_of_nil]%elem_of_cons]%elem_of_cons; reflexivity. }
  split; [|split; [exact Hempty|]].
  - rewrite Hempty. intros H. apply (f_equal (.!! None)) in H.
    by rewrite lookup_empty, lookup_singleton_eq in H.
  - vm_compute. reflexivity.
Qed.

Lemma C5_empty_field_name_witness :
  is_private "" = false
  /\ "" ∈ public_fields [("a", VInt 1); ("", VInt 2)]
  /\ Visitor_visitObject Plain (logger Plain false)
       (VObj "C" [] [("a", VInt 1); ("", VInt 2)]) no_extra []
     = (Raise IndexError, []).
Proof.
  refine (C5_empty_field_name Plain (logger Plain false)
            (VObj "C" [] [("a", VInt 1); ("", VInt 2)]) no_extra
            [("a", VInt 1); ("", VInt 2)] [] _ _).
  - reflexivity.
  - right. left.
Defined.

Lemma C4_duplicate_registration_witness :
  (exists c a celf2,
     register_attrs
       (register_attrs Plain [(OneClass (TClass "A"), AttrStr "x")]
          (recording "first" VNone)).2
       [(ClassTuple [TClass "B"; TClass "A"], AttrTuple [None; Some "x"])]
       (recording "second" VNone)
     = (Raise (AssertionError (duplicate_msg c a)), celf2)
     /\ covers [(ClassTuple [TClass "B"; TClass "A"], AttrTuple [None; Some "x"])] c a
     /\ registered celf2 c a)
  /\ register_attrs StopA [(OneClass (TClass "A"), AttrTuple [None])]
       (recording "again" VNone)
     = (Raise (AssertionError
          ("Oops, class '" +:+ type_name (TClass "A")
           +:+ "' has visitor function for '" +:+ selector_str None
           +:+ "' defined already.")),
        StopA)
  /\ register_attrs (Subclass None StopA) [(OneClass (TClass "A"), AttrTuple [None])]
       (recording "override" VNone)
     = (Return tt,
        Subclass (Some {[ TClass "A" := {[ None := recording "override" VNone ]} ]})
          StopA).
Proof.
  split; [|split].
  - refine (proj1 C4_duplicate_registration Plain
             [(OneClass (TClass "A"), AttrStr "x")] (recording "first" VNone) _
             _ (recording "second" VNone) (TClass "A") (Some "x") _ _ _ _).
    + vm_compute. reflexivity.
    + exists (OneClass (TClass "A")), (AttrStr "x").
      repeat split; apply list_elem_of_singleton; reflexivity.
    + reflexivity.
    + exists (ClassTuple [TClass "B"; TClass "A"]), (AttrTuple [None; Some "x"]).
      repeat split; [left|right; left|right; left].
  - refine (proj1 (proj2 C4_duplicate_registration) StopA (TClass "A") None
             (recording "again" VNone) _ _ _); [discriminate| |reflexivity].
    exists {[ None := recording "A" (VBool false) ]}. split; [reflexivity|].
    exists (recording "A" (VBool false)). reflexivity.
  - refine (proj1 (proj2 (proj2 (proj2 C4_duplicate_registration))) StopA
             (TClass "A") None (recording "override" VNone) _).
    reflexivity.
Defined.

Lemma C8_field_handler_precedence_witness :
  visitObject_field (logger (OnlyX VNone) false) (_visitorsFor (OnlyX VNone) node_B)
    (_visitorsFor (OnlyX VNone) node_B !! Some "*") node_B no_extra "y" []
  = guarded (logger (OnlyX VNone) false)
      (field_handler (_visitorsFor (OnlyX VNone) node_B) "y")
      [node_B; VStr "y"; VInt 20] no_extra
      (visitAttr (logger (OnlyX VNone) false) node_B "y" (VInt 20) no_extra) []
  /\ Visitor_visitObject
       (register_attr (Subclass None Visitor) (OneClass (TClass "B"))
          (AttrStr "x") (recording "B.x" VNone)).2
       (logger Plain false) (VObj "B" [] [("y", VInt 20); ("x", VInt 10)])
       no_extra []
     = (guarded (logger Plain false) (Some (recording "B.x" VNone))
          [VObj "B" [] [("y", VInt 20); ("x", VInt 10)]; VStr "x"; VInt 10]
          no_extra
          (visitAttr (logger Plain false)
             (VObj "B" [] [("y", VInt 20); ("x", VInt 10)]) "x" (VInt 10)
             no_extra) ;;
        visitAttr (logger Plain false)
          (VObj "B" [] [("y", VInt 20); ("x", VInt 10)]) "y" (VInt 20) no_extra)
         [].
Proof.
  split.
  - refine (proj1 (proj1 C8_field_handler_precedence (OnlyX VNone)
             (logger (OnlyX VNone) false) node_B no_extra dict_B "y" (VInt 20) []
             _ _ _ _)).
    all: try (vm_compute; reflexivity). discriminate.
  - refine (proj2 (proj2 C8_field_handler_precedence (recording "B.x" VNone) "B" []
             [("y", VInt 20); ("x", VInt 10)] (VInt 10) (VInt 20)
             (logger Plain false) no_extra [] _ _)).
    + reflexivity.
    + apply perm_swap.
Defined.


(** ** Registration and traversal at the sample engines *)


Lemma registration_keeps_handlers_witness :
  (forall clazzes m,
     own_handler (register StopA clazzes m).2 (TClass "A") None
     = Some (recording "A" (VBool false)))
  /\ (forall clazzes attrs m,
        own_handler (register_attr StopA clazzes attrs m).2 (TClass "A") None
        = Some (recording "A" (VBool false)))
  /\ (forall clazzes_attrs m,
        own_handler (register_attrs StopA clazzes_attrs m).2 (TClass "A") None
        = Some (recording "A" (VBool false))).
Proof.
  refine (registration_keeps_handlers StopA (TClass "A") None
            (recording "A" (VBool false)) _).
  reflexivity.
Defined.

Lemma register_then_resolve_witness :
  _visitorsFor
    (register Plain (ClassTuple [TClass "A"; TClass "U"])
       (recording "node" VNone)).2 node_U !! None
  = Some (recording "node" VNone)
  /\ _visitorsFor
       (register_attr Plain (OneClass (TClass "B")) (AttrTuple [Some "x"; Some "y"])
          (recording "B.field" VNone)).2 node_B !! Some "y"
     = Some (recording "B.field" VNone).
Proof.
  split.
  - refine (proj1 (register_then_resolve Plain _ (recording "node" VNone))
              (ClassTuple [TClass "A"; TClass "U"]) node_U _ _).
    + vm_compute. reflexivity.
    + right. left.
  - refine (proj1 (proj2 (register_then_resolve Plain _
                            (recording "B.field" VNone)))
              (OneClass (TClass "B")) (AttrTuple [Some "x"; Some "y"]) node_B
              (Some "y") _ _ _).
    + vm_compute. reflexivity.
    + left.
    + right. left.
Defined.

Lemma registration_not_atomic_witness :
  exists e celf',
    register_attr (OnlyX VNone) (OneClass (TClass "B"))
      (AttrTuple [Some "w"; Some "x"; Some "z"]) (recording "late" VNone)
    = (Raise e, celf')
    /\ own_handler celf' (TClass "B") (Some "w") = Some (recording "late" VNone).
Proof.
  refine (registration_not_atomic (OnlyX VNone) (TClass "B") (Some "w")
            [Some "x"; Some "z"] (recording "late" VNone) _ _ _ _).
  - discriminate.
  - reflexivity.
  - reflexivity.
  - exists (Some "x"). split; [left|].
    exists {[ Some "x" := recording "B.x" VNone ]}. split; [reflexivity|].
    exists (recording "B.x" VNone). reflexivity.
Defined.

Lemma subclass_entry_shadows_witness :
  exists B',
    register_attrs (Subclass None StopA)
      [(OneClass (TClass "A"), AttrTuple [Some "child"])]
      (recording "A.child" VNone)
    = (Return tt, B')
    /\ ancestors B' = ancestors (Subclass None StopA)
    /\ _visitorsFor B' node_A = {[ Some "child" := recording "A.child" VNone ]}
    /\ (Some "child" <> None ->
        forall self ex st,
          Visitor_visit B' self node_A ex st = dispatch self node_A ex st).
Proof.
  refine (subclass_entry_shadows (Subclass None StopA) (TClass "A")
            (Some "child") (recording "A.child" VNone) node_A _ _ _ _).
  - discriminate.
  - reflexivity.
  - reflexivity.
  - reflexivity.
Defined.

Lemma empty_registration_shadows_witness :
  exists B',
    register_attr (Subclass None StopA) (OneClass (TClass "A")) (AttrTuple [])
      (recording "unused" VNone)
    = (Return tt, B')
    /\ ancestors B' = ancestors (Subclass None StopA)
    /\ own_entry B' (TClass "A") = Some ∅
    /\ _visitorsFor B' node_A = ∅
    /\ forall self ex st,
         Visitor_visit B' self node_A ex st = dispatch self node_A ex st.
Proof.
  refine (empty_registration_shadows (Subclass None StopA) (TClass "A")
            (recording "unused" VNone) node_A _ _ _ _).
  - discriminate.
  - reflexivity.
  - reflexivity.
  - reflexivity.
Defined.

Lemma registration_leaves_other_types_witness :
  _visitorsFor
    (register_attrs StopA [(OneClass (TClass "B"), AttrStr "x")]
       (recording "B.x" VNone)).2 node_A
  = _visitorsFor StopA node_A.
Proof.
  refine (registration_leaves_other_types StopA
            [(OneClass (TClass "B"), AttrStr "x")] (recording "B.x" VNone)
            node_A _ _).
  - repeat constructor.
  - intros (clazzes & attrs & Hin & Hclazz).
    apply list_elem_of_singleton in Hin. injection Hin as -> _.
    apply list_elem_of_singleton in Hclazz. discriminate Hclazz.
Defined.


Lemma handler_exception_propagates_witness :
  Visitor_visit
    (Subclass (Some {[ TClass "U" := {[ None := failing "U" ]} ]}) Visitor)
    (logger Plain false) node_U no_extra []
  = (Raise (Raised (VStr "boom")), [("U", node_U)])
  /\ Visitor_visitObject
       (Subclass (Some {[ TClass "B" := {[ Some "x" := failing "B.x" ]} ]}) Visitor)
       (logger Plain false) node_B no_extra []
     = (Raise (Raised (VStr "boom")), [("B.x", node_B)])
  /\ Visitor_visitList (logger Plain false)
       (VList ([VInt 1] ++ VObj "C" [] [("", VInt 2)] :: [VInt 3])) no_extra []
     = (Raise IndexError, [("leaf", VInt 1)]).
Proof.
  split; [|split].
  - refine (proj1 handler_exception_propagates
              (Subclass (Some {[ TClass "U" := {[ None := failing "U" ]} ]}) Visitor)
              (logger Plain false) node_U no_extra (failing "U")
              (Raised (VStr "boom")) [] [("U", node_U)] _ _);
      vm_compute; reflexivity.
  - refine (proj1 (proj2 handler_exception_propagates)
              (Subclass (Some {[ TClass "B" := {[ Some "x" := failing "B.x" ]} ]})
                 Visitor)
              (logger Plain false) node_B no_extra dict_B ["_cache"] "x" ["y"]
              (VInt 10) (failing "B.x") (Raised (VStr "boom")) [] []
              [("B.x", node_B)] _ _ _ _ _ _ _ _);
      try (vm_compute; reflexivity).
    discriminate.
  - refine (proj2 (proj2 handler_exception_propagates) (logger Plain false)
              [VInt 1] [VInt 3] (VObj "C" [] [("", VInt 2)]) no_extra IndexError
              [] [("leaf", VInt 1)] [("leaf", VInt 1)] _ _);
      vm_compute; reflexivity.
Defined.

Lemma private_handlers_never_run_witness :
  Visitor_visitObject
    (Subclass
       (Some {[ TClass "B" := {[ Some "_cache" := recording "B._cache" (VBool false) ]} ]})
       Visitor)
    (logger Plain false) node_B no_extra []
  = Visitor_visitObject Plain (logger Plain false) node_B no_extra [].
Proof.
  refine (private_handlers_never_run
            (Subclass
               (Some {[ TClass "B" := {[ Some "_cache" := recording "B._cache" (VBool false) ]} ]})
               Visitor)
            Plain (logger Plain false) node_B no_extra [] _).
  intros selector Hpublic.
  change (({[ Some "_cache" := recording "B._cache" (VBool false) ]}
            : handler_set log) !! selector
          = (∅ : handler_set log) !! selector).
  rewrite lookup_empty. apply lookup_singleton_ne.
  intros <-. specialize (Hpublic "_cache" eq_refl). discriminate Hpublic.
Defined.

Lemma unregistered_visit_leaves_witness :
  visit
    (instance
       (with_leaf_hook (fun obj _ st => (Return tt, st ++ [("leaf", obj)]))
          Plain false) false 12)
    (VList [node_B; node_A]) no_extra []
  = for_each (leaves (VList [node_B; node_A]))
      (fun l => (fun obj (_ : extra) (st : log) =>
                   (Return tt, st ++ [("leaf", obj)])) l no_extra) [].
Proof.
  refine (unregistered_visit_leaves
            (fun obj _ st => (Return tt, st ++ [("leaf", obj)])) Plain false
            _ (VList [node_B; node_A]) 12 no_extra [] _ _).
  - intros thing. reflexivity.
  - reflexivity.
  - vm_compute. lia.
Defined.

Lemma plain_visitor_no_effect_witness :
  visit (instance (Visitor_methods Plain true) true 12)
    (VList [node_B; node_A]) no_extra [("before", VNone)]
  = (Return tt, [("before", VNone)]).
Proof.
  refine (plain_visitor_no_effect Plain true (VList [node_B; node_A]) 12
            no_extra [("before", VNone)] _ _ _).
  - intros thing. reflexivity.
  - reflexivity.
  - vm_compute. lia.
Defined.

Lemma visitObject_sorted_public_fields_witness :
  (forall st : log,
     Visitor_visitObject (OnlyX VNone) (logger (OnlyX VNone) false) node_B
       no_extra st
     = for_each (public_fields dict_B)
         (field_step (OnlyX VNone) (logger (OnlyX VNone) false) node_B no_extra)
         st)
  /\ (forall key,
        key ∈ public_fields dict_B <-> key ∈ dict_B.*1 /\ is_private key = false)
  /\ public_fields dict_B
     ≡ₚ filter (fun key => is_private key = false) dict_B.*1
  /\ StronglySorted str_le (public_fields dict_B)
  /\ (forall d', d'.*1 ≡ₚ dict_B.*1 -> public_fields d' = public_fields dict_B).
Proof.
  refine (visitObject_sorted_public_fields (OnlyX VNone)
            (logger (OnlyX VNone) false) node_B no_extra dict_B _ _).
  - reflexivity.
  - repeat constructor; discriminate.
Defined.

Lemma StopA_handlers_ignore_self : handlers_ignore_self StopA.
Proof.
  intros obj selector f Hf self self' positional keywords st.
  rewrite visitorsFor_resolve in Hf by repeat constructor.
  unfold StopA in Hf. rewrite resolve_Subclass, own_entry_Subclass in Hf.
  simpl in Hf.
  destruct (decide (TClass "A" = type_of obj)) as [Heq|Hne].
  - rewrite <- Heq, lookup_singleton_eq in Hf.
    destruct selector as [key|].
    + by rewrite lookup_singleton_ne in Hf.
    + rewrite lookup_singleton_eq in Hf. by injection Hf as <-.
  - rewrite lookup_singleton_ne in Hf by done. simpl in Hf.
    change (resolve Visitor (type_of obj)) with (∅ : handler_set log) in Hf.
    by rewrite lookup_empty in Hf.
Qed.

Lemma visit_enough_frames_witness :
  visit
    (instance
       (with_leaf_hook (fun obj _ st => (Return tt, st ++ [("leaf", obj)]))
          StopA false) false 40)
    (VList [node_A; node_B]) no_extra []
  = visit
      (instance
         (with_leaf_hook (fun obj _ st => (Return tt, st ++ [("leaf", obj)]))
            StopA false) false (frames_needed (VList [node_A; node_B])))
      (VList [node_A; node_B]) no_extra [].
Proof.
  refine (visit_enough_frames
            (fun obj _ st => (Return tt, st ++ [("leaf", obj)])) StopA false
            StopA_handlers_ignore_self (VList [node_A; node_B]) 40 no_extra []
            _).
  vm_compute. lia.
Defined.
